(** * PhotoWatermark: a shallow embedding of [photo_watermark.py]

    The script stamps the capture date of a photo, read from its EXIF tags,
    onto the picture.  This development embeds the parts of the script that
    its specification talks about:

    - [get_shooting_date]: the search through the EXIF tag mapping;
    - [add_watermark]: placement of the text and the choice of the saved mode;
    - [process_directory] and [main]: the batch driver and the single-file path;
    - [parse_color]: the command-line colour parser.

    Python [str] values are lists of characters.  A character is a code point
    below 256 (Pillow decodes EXIF ASCII fields as Latin-1), held in an
    [ascii].  Library calls ([datetime.strptime], [int], [str.split],
    [Path.suffix], [Path.glob] on a POSIX host) are modelled next to the code
    that calls them, following CPython's implementation of each. *)

From Stdlib Require Import ZArith List String Ascii Bool Lia Permutation.
From Stdlib Require QArith Qround.
Import ListNotations.
Open Scope Z_scope.

(** ** Python strings *)

Module PyStr.

Definition str := list ascii.

Definition lit (s : string) : str := list_ascii_of_string s.

Definition code (c : ascii) : Z := Z.of_N (N_of_ascii c).

Definition chr (n : Z) : ascii := ascii_of_N (Z.to_N n).

Definition in_range (lo hi : Z) (c : ascii) : bool :=
  (lo <=? code c) && (code c <=? hi).

Definition is_char (a : ascii) (c : ascii) : bool := Ascii.eqb a c.

Fixpoint str_eqb (a b : str) : bool :=
  match a, b with
  | [], [] => true
  | x :: a', y :: b' => Ascii.eqb x y && str_eqb a' b'
  | _, _ => false
  end.

(** [s.startswith(p)] *)
Fixpoint startswith (s p : str) {struct p} : bool :=
  match p with
  | [] => true
  | x :: p' =>
      match s with
      | y :: s' => Ascii.eqb x y && startswith s' p'
      | [] => false
      end
  end.

(** [s.endswith(p)] *)
Definition endswith (s p : str) : bool := startswith (rev s) (rev p).

(** [c.lower()] for a code point below 256: the ASCII capitals and the
    Latin-1 capitals U+00C0..U+00DE (except the multiplication sign). *)
Definition lower_char (c : ascii) : ascii :=
  if in_range 65 90 c then chr (code c + 32)
  else if in_range 192 222 c && negb (code c =? 215) then chr (code c + 32)
  else c.

Definition lower (s : str) : str := map lower_char s.

(** [c.upper()] on ASCII letters; the script applies it to its own
    extension constants only. *)
Definition upper_char (c : ascii) : ascii :=
  if in_range 97 122 c then chr (code c - 32) else c.

Definition upper (s : str) : str := map upper_char s.

(** [x in s] for a one-character [x]. *)
Definition contains (s : str) (c : ascii) : bool := existsb (Ascii.eqb c) s.

(** [s.lstrip(c)] for a one-character set. *)
Fixpoint lstrip (c : ascii) (s : str) : str :=
  match s with
  | x :: s' => if Ascii.eqb x c then lstrip c s' else s
  | [] => []
  end.

(** [s[i:j]] for [0 <= i <= j]. *)
Definition slice (s : str) (i j : nat) : str := firstn (j - i) (skipn i s).

(** [s.split(c)]: the pieces between the occurrences of [c]; never empty. *)
Fixpoint split (c : ascii) (s : str) : list str :=
  match s with
  | [] => [[]]
  | x :: s' =>
      if Ascii.eqb x c then [] :: split c s'
      else match split c s' with
           | p :: ps => (x :: p) :: ps
           | [] => [[x]]
           end
  end.

(** *** [int(s, base)]

    CPython's [PyLong_FromString] after [int]'s preparation of a [str]
    argument: white space around the number is dropped, one sign is allowed,
    base 16 allows a [0x] prefix, and single underscores may separate
    digits. *)

Definition int_space (c : ascii) : bool :=
  in_range 9 13 c || (code c =? 32) || (code c =? 133) || (code c =? 160).

Definition digit_value (c : ascii) : option Z :=
  if in_range 48 57 c then Some (code c - 48)
  else if in_range 97 122 c then Some (code c - 87)
  else if in_range 65 90 c then Some (code c - 55)
  else None.

Definition is_digit_in (base : Z) (c : ascii) : bool :=
  match digit_value c with
  | Some d => d <? base
  | None => false
  end.

Fixpoint scan_digits (base acc : Z) (after_underscore : bool) (s : str)
  : option (Z * str) :=
  match s with
  | c :: r =>
      if Ascii.eqb c "_" then
        if after_underscore then None else scan_digits base acc true r
      else
        match digit_value c with
        | Some d =>
            if d <? base then scan_digits base (acc * base + d) false r
            else if after_underscore then None else Some (acc, s)
        | None => if after_underscore then None else Some (acc, s)
        end
  | [] => if after_underscore then None else Some (acc, [])
  end.

Fixpoint skip_space (s : str) : str :=
  match s with
  | c :: r => if int_space c then skip_space r else s
  | [] => []
  end.

Definition skip_sign (s : str) : Z * str :=
  match s with
  | c :: r =>
      if Ascii.eqb c "+" then (1, r)
      else if Ascii.eqb c "-" then (-1, r)
      else (1, s)
  | [] => (1, [])
  end.

Definition skip_prefix (base : Z) (s : str) : str :=
  if base =? 16 then
    match s with
    | z :: x :: r =>
        if Ascii.eqb z "0" && (Ascii.eqb x "x" || Ascii.eqb x "X") then
          match r with
          | u :: r' => if Ascii.eqb u "_" then r' else r
          | [] => r
          end
        else s
    | _ => s
    end
  else s.

(** [None] stands for [ValueError]. *)
Definition int (base : Z) (s : str) : option Z :=
  let (sign, s1) := skip_sign (skip_space s) in
  let s2 := skip_prefix base s1 in
  match s2 with
  | c :: _ =>
      if is_digit_in base c then
        match scan_digits base 0 false s2 with
        | Some (v, rest) =>
            match skip_space rest with
            | [] => Some (sign * v)
            | _ :: _ => None
            end
        | None => None
        end
      else None
  | [] => None
  end.

End PyStr.

Import PyStr.

(** ** Regular expressions, as [datetime.strptime] uses them

    [_strptime] turns the format into a regular expression and calls
    [re.match]: a backtracking search that commits to the first way of
    matching, alternatives tried from left to right and [+] greedy. *)

Module Re.

Inductive regex :=
| Cls (p : ascii -> bool)
| Cat (a b : regex)
| Alt (a b : regex)
| Plus (p : ascii -> bool)
| Group (name : string) (a : regex).

Definition groups := list (string * str).

Section Run.
Context {R : Type}.

(** A continuation takes the groups so far, the text the piece matched
    and the rest of the input; [None] makes the search back up. *)
Definition cont := groups -> str -> str -> option R.

Fixpoint plus_from (p : ascii -> bool) (s : str) (k : str -> str -> option R)
  : option R :=
  match s with
  | c :: r =>
      if p c then
        match plus_from p r (fun m => k (c :: m)) with
        | Some x => Some x
        | None => k [c] r
        end
      else None
  | [] => None
  end.

Fixpoint run (r : regex) (s : str) (g : groups) (k : cont) : option R :=
  match r with
  | Cls p =>
      match s with
      | c :: s' => if p c then k g [c] s' else None
      | [] => None
      end
  | Cat a b =>
      run a s g (fun g1 m1 s1 =>
      run b s1 g1 (fun g2 m2 s2 => k g2 (m1 ++ m2) s2))
  | Alt a b =>
      match run a s g k with
      | Some x => Some x
      | None => run b s g k
      end
  | Plus p => plus_from p s (k g)
  | Group n a => run a s g (fun g' m s' => k ((n, m) :: g') m s')
  end.
End Run.

(** [re.match(r, s)]: the groups and the unmatched rest of [s]. *)
Definition rmatch (r : regex) (s : str) : option (groups * str) :=
  run r s [] (fun g _ rest => Some (g, rest)).

Fixpoint group (g : groups) (n : string) : option str :=
  match g with
  | (m, v) :: g' => if String.eqb m n then Some v else group g' n
  | [] => None
  end.

End Re.

(** ** Exceptions *)

Inductive exn :=
| ValueError
| TypeError
| AttributeError
| OSError          (* a missing or unreadable file, a failed write *)
| OtherError.      (* any other subclass of [Exception] *)

Inductive result (A : Type) :=
| Ok (a : A)
| Raise (e : exn).
Arguments Ok {A} a.
Arguments Raise {A} e.

(** ** [datetime.strptime(value, '%Y:%m:%d %H:%M:%S')] and [strftime] *)

Module DateTime.
Import Re.

Record datetime := {
  year : Z; month : Z; day : Z;
  hour : Z; minute : Z; second : Z
}.

Definition d09 : regex := Cls (in_range 48 57).          (* \d *)
Definition ch (lo hi : string) : regex :=
  match lo, hi with
  | String a _, String b _ => Cls (in_range (code a) (code b))
  | _, _ => Cls (fun _ => false)
  end.
Definition one (c : ascii) : regex := Cls (is_char c).

(** [\s] of a [str] pattern, on code points below 256. *)
Definition re_space (c : ascii) : bool :=
  in_range 9 13 c || in_range 28 32 c || (code c =? 133) || (code c =? 160).

Definition re_Y := Group "Y" (Cat d09 (Cat d09 (Cat d09 d09))).
Definition re_m :=
  Group "m" (Alt (Cat (one "1") (ch "0" "2"))
            (Alt (Cat (one "0") (ch "1" "9"))
                 (ch "1" "9"))).
Definition re_d :=
  Group "d" (Alt (Cat (one "3") (ch "0" "1"))
            (Alt (Cat (ch "1" "2") d09)
            (Alt (Cat (one "0") (ch "1" "9"))
            (Alt (ch "1" "9")
                 (Cat (one " ") (ch "1" "9")))))).
Definition re_H :=
  Group "H" (Alt (Cat (one "2") (ch "0" "3"))
            (Alt (Cat (ch "0" "1") d09)
                 d09)).
Definition re_M :=
  Group "M" (Alt (Cat (ch "0" "5") d09) d09).
Definition re_S :=
  Group "S" (Alt (Cat (one "6") (ch "0" "1"))
            (Alt (Cat (ch "0" "5") d09)
                 d09)).

(** The pattern of ['%Y:%m:%d %H:%M:%S']. *)
Definition format_regex : regex :=
  Cat re_Y (Cat (one ":") (Cat re_m (Cat (one ":") (Cat re_d
  (Cat (Plus re_space)
  (Cat re_H (Cat (one ":") (Cat re_M (Cat (one ":") re_S))))))))).

Definition is_leap (y : Z) : bool :=
  (y mod 4 =? 0) && (negb (y mod 100 =? 0) || (y mod 400 =? 0)).

Definition days_in_month (y m : Z) : Z :=
  if m =? 2 then (if is_leap y then 29 else 28)
  else if (m =? 4) || (m =? 6) || (m =? 9) || (m =? 11) then 30
  else 31.

(** The checks of the [date] and [datetime] constructors. *)
Definition valid_date (y m d : Z) : bool :=
  (1 <=? y) && (y <=? 9999) && (1 <=? m) && (m <=? 12) &&
  (1 <=? d) && (d <=? days_in_month y m).

Definition valid_time (h mi s : Z) : bool :=
  (0 <=? h) && (h <=? 23) && (0 <=? mi) && (mi <=? 59) &&
  (0 <=? s) && (s <=? 59).

Definition field (g : groups) (n : string) : option Z :=
  match group g n with
  | Some v => int 10 v
  | None => None
  end.

(** [strptime] on a [str]; every failure is a [ValueError]. *)
Definition strptime_str (s : str) : result datetime :=
  match rmatch format_regex s with
  | None => Raise ValueError            (* does not match the format *)
  | Some (g, _ :: _) => Raise ValueError  (* unconverted data remains *)
  | Some (g, []) =>
      match field g "Y", field g "m", field g "d",
            field g "H", field g "M", field g "S" with
      | Some y, Some m, Some d, Some h, Some mi, Some s =>
          if valid_date y m d && valid_time h mi s
          then Ok {| year := y; month := m; day := d;
                     hour := h; minute := mi; second := s |}
          else Raise ValueError
      | _, _, _, _, _, _ => Raise ValueError
      end
  end.

Definition digit_char (d : Z) : ascii := chr (48 + d).

Definition pad2 (n : Z) : str :=
  [digit_char (n / 10 mod 10); digit_char (n mod 10)].

Definition pad4 (n : Z) : str :=
  [digit_char (n / 1000 mod 10); digit_char (n / 100 mod 10);
   digit_char (n / 10 mod 10); digit_char (n mod 10)].

(** [dt.strftime('%Y-%m-%d')], the year zero-padded to four digits as the
    library documents it. *)
Definition strftime (dt : datetime) : str :=
  pad4 (year dt) ++ lit "-" ++ pad2 (month dt) ++ lit "-" ++ pad2 (day dt).

End DateTime.

(** ** EXIF data as Pillow hands it over

    [img._getexif()] returns [None] or a dict from numeric tag ids to decoded
    values.  The type of a value follows the type recorded in the file, not
    the tag: an ASCII field is a [str], the others are numbers, byte strings
    or rationals. *)

Module Exif.
Import DateTime.

Inductive value :=
| VStr (s : str)
| VInt (n : Z)
| VBytes (b : list ascii)
| VRational (num den : Z).

(** The dict, in iteration order. *)
Definition exif_dict := list (Z * value).

(** The entries of [ExifTags.TAGS] for TIFF baseline and date fields; no
    other tag id is named [DateTime], [DateTimeOriginal] or
    [DateTimeDigitized]. *)
Definition TAGS : list (Z * string) :=
  [ (256, "ImageWidth"); (257, "ImageLength"); (270, "ImageDescription");
    (271, "Make"); (272, "Model"); (274, "Orientation");
    (282, "XResolution"); (283, "YResolution"); (296, "ResolutionUnit");
    (305, "Software"); (306, "DateTime"); (315, "Artist");
    (33432, "Copyright"); (33434, "ExposureTime"); (33437, "FNumber");
    (34665, "ExifOffset"); (34853, "GPSInfo");
    (34855, "ISOSpeedRatings"); (36864, "ExifVersion");
    (36867, "DateTimeOriginal"); (36868, "DateTimeDigitized");
    (37377, "ShutterSpeedValue"); (37378, "ApertureValue");
    (37385, "Flash"); (37386, "FocalLength"); (37500, "MakerNote");
    (37510, "UserComment"); (37520, "SubsecTime");
    (37521, "SubsecTimeOriginal"); (37522, "SubsecTimeDigitized");
    (40962, "ExifImageWidth"); (40963, "ExifImageHeight") ]%string.

Inductive tag :=
| Named (n : string)
| Numbered (id : Z).

(** [ExifTags.TAGS.get(tag_id, tag_id)] *)
Fixpoint TAGS_get (table : list (Z * string)) (tag_id : Z) : tag :=
  match table with
  | (k, n) :: t => if k =? tag_id then Named n else TAGS_get t tag_id
  | [] => Numbered tag_id
  end.

(** [tag == tag_name] *)
Definition tag_is (t : tag) (tag_name : string) : bool :=
  match t with
  | Named n => String.eqb n tag_name
  | Numbered _ => false
  end.

(** [datetime.strptime(value, '%Y:%m:%d %H:%M:%S')]: a first argument that
    is not a [str] is a [TypeError]. *)
Definition strptime (v : value) : result datetime :=
  match v with
  | VStr s => strptime_str s
  | _ => Raise TypeError
  end.

(** One pass [for tag_id, value in exif_data.items()] looking for
    [tag_name]: [Ok (Some d)] is [return d]; [Ok None] is the end of the
    loop; only [ValueError] is caught (the [continue]). *)
Fixpoint scan_for (tag_name : string) (items : exif_dict)
  : result (option str) :=
  match items with
  | [] => Ok None
  | (tag_id, value) :: rest =>
      if tag_is (TAGS_get TAGS tag_id) tag_name then
        match strptime value with
        | Ok dt => Ok (Some (strftime dt))
        | Raise ValueError => scan_for tag_name rest
        | Raise e => Raise e
        end
      else scan_for tag_name rest
  end.

Definition date_tags : list string :=
  ["DateTimeOriginal"; "DateTimeDigitized"]%string.

(** [for tag_name in date_tags: ...] *)
Fixpoint scan_each (names : list string) (items : exif_dict)
  : result (option str) :=
  match names with
  | [] => Ok None
  | tag_name :: more =>
      match scan_for tag_name items with
      | Ok None => scan_each more items
      | r => r
      end
  end.

(** The body of [get_shooting_date] once [exif_data] is a dict. *)
Definition search_date (exif_data : exif_dict) : result (option str) :=
  match scan_for "DateTime" exif_data with
  | Ok None => scan_each date_tags exif_data
  | r => r
  end.

End Exif.

(** ** Paths, pictures and the file system *)

Module FS.

(** A [pathlib.Path]: the components of the parent and the final name. *)
Record path := { parent : list str; name : str }.

Fixpoint parts_eqb (a b : list str) : bool :=
  match a, b with
  | [], [] => true
  | x :: a', y :: b' => str_eqb x y && parts_eqb a' b'
  | _, _ => false
  end.

Definition path_eqb (p q : path) : bool :=
  parts_eqb (parent p) (parent q) && str_eqb (name p) (name q).

(** [d / n] *)
Definition joinpath (d : path) (n : str) : path :=
  {| parent := parent d ++ [name d]; name := n |}.

(** [p.parent / n] *)
Definition sibling (p : path) (n : str) : path :=
  {| parent := parent p; name := n |}.

(** [s.rfind(c)] *)
Fixpoint rfind (c : ascii) (s : str) : option nat :=
  match s with
  | [] => None
  | x :: r =>
      match rfind c r with
      | Some i => Some (S i)
      | None => if Ascii.eqb x c then Some O else None
      end
  end.

(** [PurePath.suffix] and [PurePath.stem], from the last dot of the name
    unless it is the first or the last character. *)
Definition suffix (n : str) : str :=
  match rfind "." n with
  | Some i =>
      if (0 <? i)%nat && (i <? List.length n - 1)%nat then skipn i n else []
  | None => []
  end.

Definition stem (n : str) : str :=
  match rfind "." n with
  | Some i =>
      if (0 <? i)%nat && (i <? List.length n - 1)%nat then firstn i n else n
  | None => n
  end.

(** What [Image.open] finds in a file. *)
Inductive getexif_result :=
| ExifRaises                       (* the call raises: no [_getexif], broken data *)
| ExifNone                         (* no EXIF block *)
| ExifDict (d : Exif.exif_dict).

Record image := {
  width : Z;
  height : Z;
  getexif : getexif_result
}.

Inductive content :=
| Undecodable
| Picture (img : image).

Inductive mode := RGB | RGBA.

(** What [watermarked.save] writes. *)
Record saved := {
  saved_mode : mode;
  saved_quality : Z;
  saved_text : str;
  saved_xy : Z * Z;
  saved_fill : list Z
}.

Inductive msg :=
| MsgExifError                      (* 读取EXIF信息时出错 *)
| MsgNoDate (file : str)            (* 警告: ... 未找到拍摄日期信息 *)
| MsgSaved (file : str)             (* 已保存 *)
| MsgProcessError (file : str)      (* 处理图片 ... 时出错 *)
| MsgDirMissing (d : path)          (* 错误: 目录 ... 不存在 *)
| MsgOutputDir (d : path)           (* 输出目录 *)
| MsgNoImages                       (* 未找到支持的图片文件 *)
| MsgFound (n : nat)                (* 找到 n 张图片，开始处理 *)
| MsgFileFailed (file : str)        (* 处理 ... 失败 *)
| MsgDone (success total : nat)     (* 处理完成！成功: success/total *)
| MsgUnsupported (sfx : str)        (* 错误: 不支持的文件格式 *)
| MsgSingleDone (p : path)          (* 处理完成！输出文件 *)
| MsgSingleFailed                   (* 处理失败 *)
| MsgPathMissing (p : path).        (* 错误: 路径 ... 不存在 *)

(** What a run does, in order. *)
Inductive event :=
| Print (m : msg)
| Mkdir (p : path)
| Glob (d : path) (pattern : str)
| Open (p : path)
| DrawText (xy : Z * Z) (text : str) (fill : list Z)
| Save (p : path) (m : mode).

Record world := {
  dirs : list path;
  files : list (path * content);
  written : list (path * saved);
  trace : list event
}.

Definition is_dir (w : world) (p : path) : bool :=
  existsb (path_eqb p) (dirs w).

Definition is_file (w : world) (p : path) : bool :=
  existsb (fun f => path_eqb p (fst f)) (files w).

Definition exists_ (w : world) (p : path) : bool :=
  is_dir w p || is_file w p.

Fixpoint read (fs : list (path * content)) (p : path) : option content :=
  match fs with
  | (q, c) :: t => if path_eqb p q then Some c else read t p
  | [] => None
  end.

(** The names of the entries of directory [d], files first. *)
Definition is_child (d q : path) : bool :=
  path_eqb (joinpath d (name q)) q.

Definition listdir (w : world) (d : path) : list str :=
  map name (filter (is_child d) (map fst (files w)))
  ++ map name (filter (is_child d) (dirs w)).

End FS.

(** ** The state and error monad of the script *)

Module Run.
Import FS.

Definition M (A : Type) : Type := world -> result A * world.

Definition ret {A} (a : A) : M A := fun w => (Ok a, w).

Definition raise {A} (e : exn) : M A := fun w => (Raise e, w).

Definition bind {A B} (m : M A) (f : A -> M B) : M B :=
  fun w =>
    match m w with
    | (Ok a, w') => f a w'
    | (Raise e, w') => (Raise e, w')
    end.

(** [try: body  except Exception as e: handler e] *)
Definition try_except {A} (body : M A) (handler : exn -> M A) : M A :=
  fun w =>
    match body w with
    | (Ok a, w') => (Ok a, w')
    | (Raise e, w') => handler e w'
    end.

Definition lift {A} (r : result A) : M A := fun w => (r, w).

Definition emit (e : event) : M unit :=
  fun w => (Ok tt, {| dirs := dirs w; files := files w;
                      written := written w; trace := trace w ++ [e] |}).

Definition print (m : msg) : M unit := emit (Print m).

Definition get {A} (f : world -> A) : M A := fun w => (Ok (f w), w).

Definition put_dir (p : path) : M unit :=
  fun w => (Ok tt, {| dirs := dirs w ++ [p]; files := files w;
                      written := written w; trace := trace w |}).

Definition put_written (p : path) (s : saved) : M unit :=
  fun w => (Ok tt, {| dirs := dirs w; files := files w;
                      written := written w ++ [(p, s)]; trace := trace w |}).

End Run.

Declare Scope run_scope.
Delimit Scope run_scope with run.
Notation "x <- m ;; k" := (Run.bind m (fun x => k))
  (at level 61, m at next level, right associativity) : run_scope.
Notation "m ;; k" := (Run.bind m (fun _ => k))
  (at level 61, right associativity) : run_scope.

(** ** The script *)

Module PhotoWatermark.
Import DateTime Exif FS Run.
Local Open Scope run_scope.

(** [self.supported_formats], a set. *)
Definition supported_formats : list str :=
  map lit [".jpg"; ".jpeg"; ".png"; ".bmp"; ".tiff"; ".tif"]%string.

(** [x in self.supported_formats] *)
Definition is_supported (x : str) : bool :=
  existsb (str_eqb x) supported_formats.

(** [_get_default_font], by [sys.platform]. *)
Definition _get_default_font (platform : str) : str :=
  if startswith platform (lit "win") then lit "C:/Windows/Fonts/simhei.ttf"
  else if startswith platform (lit "darwin")
       then lit "/System/Library/Fonts/PingFang.ttc"
  else lit "/usr/share/fonts/truetype/dejavu/DejaVuSans.ttf".

(** The text drawn when no date is found: "unknown date" in Chinese, kept
    as its UTF-8 bytes. *)
Definition placeholder : str := lit "未知日期".

(** An argument that is a path: the script's own callers pass
    [pathlib.Path] objects, a caller of the class may pass a [str]. *)
Inductive path_arg :=
| AsStr (p : path)
| AsPath (p : path).

Definition path_of (a : path_arg) : path :=
  match a with AsStr p | AsPath p => p end.

(** [output_path.lower()]: a [str] method; [Path] has no such attribute.
    Only the end of the text is looked at, and that is the name. *)
Definition lower_of (a : path_arg) : result str :=
  match a with
  | AsStr p => Ok (lower (name p))
  | AsPath _ => Raise AttributeError
  end.

Record options := {
  font_size : Z;
  color : list Z;
  position : str;
  opacity : QArith_base.Q
}.

Inductive font :=
| TrueType (file : str) (size : Z)
| DefaultFont.

(** The imaging library and the host, as far as the script sees them. *)
Record pillow := {
  platform : str;
  truetype_loads : str -> Z -> bool;
  textbbox : font -> str -> Z * Z * Z * Z;
  draw_accepts : list Z -> bool;
  save_accepts : path -> mode -> bool
}.

(** [int(255 * opacity)], the float taken as a rational. *)
Definition alpha_of (opacity : QArith_base.Q) : Z :=
  let x := QArith_base.Qmult (QArith_base.inject_Z 255) opacity in
  if (QArith_base.Qnum x <? 0) then Qround.Qceiling x else Qround.Qfloor x.

(** Lines 112-123: the position of the text. *)
Definition watermark_xy (position : str) (img_width img_height : Z)
    (text_width text_height : Z) : Z * Z :=
  let margin := 20 in
  if str_eqb position (lit "top-left") then (margin, margin)
  else if str_eqb position (lit "top-right") then
    (img_width - text_width - margin, margin)
  else if str_eqb position (lit "center") then
    ((img_width - text_width) / 2, (img_height - text_height) / 2)
  else if str_eqb position (lit "bottom-left") then
    (margin, img_height - text_height - margin)
  else
    (img_width - text_width - margin, img_height - text_height - margin).

(** Lines 132-134: the mode of the picture handed to [save]. *)
Definition save_mode (lowered : str) : mode :=
  if endswith lowered (lit ".jpg") || endswith lowered (lit ".jpeg")
  then RGB else RGBA.

Section Script.

Variable PIL : pillow.

(** The order in which [for ext in self.supported_formats] visits the
    set. *)
Variable iteration_order : list str.

(** [self.font_path] *)
Definition font_path : str := _get_default_font (platform PIL).

(** [Image.open(p)] *)
Definition image_open (p : path) : M image :=
  emit (Open p) ;;
  c <- get (fun w => read (files w) p) ;;
  match c with
  | Some (Picture img) => ret img
  | Some Undecodable => raise OSError
  | None => raise OSError
  end.

(** Lines 38-71: any exception, from opening the file to the search, is
    printed and turned into [None]. *)
Definition get_shooting_date (image_path : path) : M (option str) :=
  try_except
    (img <- image_open image_path ;;
     match getexif img with
     | ExifRaises => raise OtherError
     | ExifNone => ret None
     | ExifDict exif_data => lift (search_date exif_data)
     end)
    (fun e => print MsgExifError ;; ret None).

(** Lines 100-105: the platform's font, or Pillow's built-in one. *)
Definition load_font (size : Z) : font :=
  if truetype_loads PIL font_path size then TrueType font_path size
  else DefaultFont.

(** [draw.text(xy, text, font=font, fill=fill)]; Pillow raises on a fill it
    cannot read as a colour. *)
Definition draw_text (xy : Z * Z) (text : str) (fill : list Z) : M unit :=
  if draw_accepts PIL fill then emit (DrawText xy text fill)
  else raise TypeError.

(** [watermarked.save(output_path, quality=95)]: the directory must be
    there and Pillow must accept the file. *)
Definition save (output_path : path) (s : saved) : M unit :=
  emit (Save output_path (saved_mode s)) ;;
  parent_ok <- get (fun w =>
    match rev (parent output_path) with
    | d :: up => is_dir w {| parent := rev up; name := d |}
    | [] => true
    end) ;;
  if parent_ok && save_accepts PIL output_path (saved_mode s)
  then put_written output_path s
  else raise OSError.

(** Lines 85-141.  The pixels are Pillow's business: of the conversion to
    RGBA, the transparent layer and [alpha_composite], the model keeps what
    is drawn ([DrawText]) and what is handed to [save]. *)
Definition add_watermark (image_path : path) (output_path : path_arg)
    (o : options) : M unit :=
  try_except
    (img <- image_open image_path ;;
     found <- get_shooting_date image_path ;;
     shooting_date <-
       match found with
       | None => print (MsgNoDate (name image_path)) ;; ret placeholder
       | Some d => ret d
       end ;;
     let fnt := load_font (font_size o) in
     let '(x0, y0, x1, y1) := textbbox PIL fnt shooting_date in
     let text_width := x1 - x0 in
     let text_height := y1 - y0 in
     let xy := watermark_xy (position o) (width img) (height img)
                 text_width text_height in
     let text_color := color o ++ [alpha_of (opacity o)] in
     draw_text xy shooting_date text_color ;;
     lowered <- lift (lower_of output_path) ;;
     save (path_of output_path)
       {| saved_mode := save_mode lowered; saved_quality := 95;
          saved_text := shooting_date; saved_xy := xy;
          saved_fill := text_color |} ;;
     print (MsgSaved (name (path_of output_path))))
    (fun e => print (MsgProcessError (name image_path)) ;; raise e).

(** [output_dir.mkdir(exist_ok=True)] *)
Definition mkdir_exist_ok (p : path) : M unit :=
  emit (Mkdir p) ;;
  isd <- get (fun w => is_dir w p) ;;
  isf <- get (fun w => is_file w p) ;;
  if isd then ret tt
  else if isf then raise OSError
  else put_dir p.

(** [input_path.glob(pattern)] for a pattern [*ext], on a POSIX host: the
    entries whose name ends with [ext], letter case respected. *)
Definition glob (d : path) (ext : str) : M (list path) :=
  emit (Glob d (lit "*" ++ ext)) ;;
  names <- get (fun w => if is_dir w d then listdir w d else []) ;;
  ret (map (joinpath d) (filter (fun n => endswith n ext) names)).

(** Lines 165-168. *)
Fixpoint collect (d : path) (exts : list str) (image_files : list path)
  : M (list path) :=
  match exts with
  | [] => ret image_files
  | ext :: more =>
      low <- glob d ext ;;
      up <- glob d (upper ext) ;;
      collect d more (image_files ++ low ++ up)
  end.

(** Lines 177-185: the loop with its per-file handler. *)
Fixpoint process_files (output_dir : path) (o : options)
    (image_files : list path) (success_count : nat) : M nat :=
  match image_files with
  | [] => ret success_count
  | img_path :: more =>
      done <- try_except
        (let output_path := joinpath output_dir (name img_path) in
         add_watermark img_path (AsPath output_path) o ;;
         ret true)
        (fun e => print (MsgFileFailed (name img_path)) ;; ret false) ;;
      process_files output_dir o more
        (if done then S success_count else success_count)
  end.

(** Lines 154-188. *)
Definition process_directory (input_dir : path) (o : options) : M unit :=
  let input_path := input_dir in
  present <- get (fun w => exists_ w input_path) ;;
  if negb present then print (MsgDirMissing input_dir)
  else
    let output_dir := sibling input_path (name input_path ++ lit "_watermark") in
    mkdir_exist_ok output_dir ;;
    print (MsgOutputDir output_dir) ;;
    image_files <- collect input_path iteration_order [] ;;
    match image_files with
    | [] => print MsgNoImages
    | _ :: _ =>
        print (MsgFound (List.length image_files)) ;;
        success_count <- process_files output_dir o image_files 0%nat ;;
        print (MsgDone success_count (List.length image_files)) ;;
        print (MsgOutputDir output_dir)
    end.

End Script.

End PhotoWatermark.

(** ** [parse_color] *)

Definition colors : list (string * list Z) :=
  [ ("white", [255; 255; 255]); ("black", [0; 0; 0]);
    ("red", [255; 0; 0]); ("green", [0; 255; 0]); ("blue", [0; 0; 255]);
    ("yellow", [255; 255; 0]); ("cyan", [0; 255; 255]);
    ("magenta", [255; 0; 255]) ]%string.

(** [colors.get(key, default)] *)
Fixpoint colors_get (table : list (string * list Z)) (key : str)
    (default : list Z) : list Z :=
  match table with
  | (n, rgb) :: t =>
      if str_eqb (lit n) key then rgb else colors_get t key default
  | [] => default
  end.

(** [tuple(f(x) for x in pieces)]: the first failure ends it. *)
Fixpoint int_tuple (f : str -> option Z) (pieces : list str)
  : option (list Z) :=
  match pieces with
  | [] => Some []
  | x :: more =>
      match f x with
      | Some n =>
          match int_tuple f more with
          | Some t => Some (n :: t)
          | None => None
          end
      | None => None
      end
  end.

(** The body of the [try]; [None] is an exception, which the bare
    [except] turns into white. *)
Definition parse_color_try (color_str : str) : option (list Z) :=
  if startswith color_str (lit "#") then
    let color_str := lstrip "#" color_str in
    int_tuple (int 16)
      (map (fun i => slice color_str i (i + 2)) [0; 2; 4]%nat)
  else if contains color_str "," then
    int_tuple (int 10) (split "," color_str)
  else
    Some (colors_get colors (lower color_str) [255; 255; 255]).

Definition parse_color (color_str : str) : list Z :=
  match parse_color_try color_str with
  | Some rgb => rgb
  | None => [255; 255; 255]
  end.

(** ** [main] *)

Module Main.
Import FS Run PhotoWatermark.
Local Open Scope run_scope.

(** The parsed command line. *)
Record arguments := {
  arg_input_path : path;
  arg_font_size : Z;
  arg_color : str;
  arg_position : str;
  arg_opacity : QArith_base.Q
}.

Section Entry.

Variable PIL : pillow.
Variable iteration_order : list str.

(** Lines 230-261. *)
Definition main (args : arguments) : M unit :=
  let color := parse_color (arg_color args) in
  let o := {| font_size := arg_font_size args; color := color;
              position := arg_position args;
              opacity := arg_opacity args |} in
  let input_path := arg_input_path args in
  isf <- get (fun w => is_file w input_path) ;;
  if isf then
    if negb (is_supported (lower (suffix (name input_path)))) then
      print (MsgUnsupported (suffix (name input_path)))
    else
      let output_dir :=
        sibling input_path (stem (name input_path) ++ lit "_watermark") in
      mkdir_exist_ok output_dir ;;
      let output_path := joinpath output_dir (name input_path) in
      try_except
        (add_watermark PIL input_path (AsPath output_path) o ;;
         print (MsgSingleDone output_path))
        (fun e => print MsgSingleFailed)
  else
    isd <- get (fun w => is_dir w input_path) ;;
    if isd then process_directory PIL iteration_order input_path o
    else print (MsgPathMissing input_path).

End Entry.

End Main.

(** * The vocabulary of the properties

    What the statements below are written in: the spellings the
    specification talks about, the specification's own reading of the date
    search, names for the events of a run, and a small concrete disk. *)

(** The 256 characters. *)
Definition all_ascii : list ascii :=
  map (fun n => ascii_of_nat n) (seq 0 256).

Module ColorSpec.


Definition is_hex (c : ascii) : bool :=
  in_range 48 57 c || in_range 97 102 c || in_range 65 70 c.


Definition is_dec (c : ascii) : bool := in_range 48 57 c.

(** The number a string of decimal digits denotes. *)
Definition dec_val (s : str) : Z :=
  fold_left (fun acc c => acc * 10 + (code c - 48)) s 0.

(** A decimal numeral: one digit at least, digits only. *)
Definition numeral (s : str) : Prop := s <> [] /\ forallb is_dec s = true.


End ColorSpec.

Module DateSpec.
Import DateTime.

(** The text "YYYY:MM:DD HH:MM:SS" of six numbers. *)
Definition stamp (y m d h mi s : Z) : str :=
  pad4 y ++ ":"%char :: pad2 m ++ ":"%char :: pad2 d ++ " "%char ::
  pad2 h ++ ":"%char :: pad2 mi ++ ":"%char :: pad2 s.

(** The first ten characters with [-] for [:]. *)
Definition date_portion (text : str) : str :=
  map (fun c => if Ascii.eqb c ":" then "-"%char else c) (firstn 10 text).

End DateSpec.

Module ExifSpec.
Import DateTime Exif FS.

(** The numeric id behind each of the three names. *)
Definition id_of (tag_name : string) : Z :=
  if String.eqb tag_name "DateTime" then 306
  else if String.eqb tag_name "DateTimeOriginal" then 36867
  else 36868.

Definition date_names : list string :=
  ["DateTime"; "DateTimeOriginal"; "DateTimeDigitized"]%string.

(** *** The search as the specification words it

    The primary tag, then the two alternates in their fixed order; a value
    that does not parse is passed over and the next candidate is tried.
    [spec_date] is that search; the code's is [Exif.search_date]. *)

(** What a candidate value yields: its date, or nothing when it does not
    parse. *)
Definition date_of (v : value) : option str :=
  match strptime v with
  | Ok dt => Some (strftime dt)
  | Raise _ => None
  end.

(** The first entry under tag [id] whose value yields a date. *)
Fixpoint first_date (id : Z) (d : exif_dict) : option str :=
  match d with
  | [] => None
  | (k, v) :: rest =>
      if k =? id then
        match date_of v with
        | Some x => Some x
        | None => first_date id rest
        end
      else first_date id rest
  end.

Definition spec_date (d : exif_dict) : option str :=
  match first_date 306 d with
  | Some x => Some x
  | None =>
      match first_date 36867 d with
      | Some x => Some x
      | None => first_date 36868 d
      end
  end.

(** A dict whose date fields all hold text. *)
Definition text_dates (d : exif_dict) : Prop :=
  forall k v, In (k, v) d -> In k [306; 36867; 36868] -> exists s, v = VStr s.

(** No date field holds a value that parses. *)
Definition no_usable_timestamp (r : getexif_result) : Prop :=
  match r with
  | ExifDict d =>
      forall k v, In (k, v) d -> In k [306; 36867; 36868] -> date_of v = None
  | ExifRaises | ExifNone => True
  end.

(** A dict as Pillow returns it for a file whose [DateTime] field (tag 306)
    is stored with a numeric type, next to a well-formed
    [DateTimeOriginal]. *)
Definition stray_datetime : exif_dict :=
  [ (306, VInt 0); (36867, VStr (lit "2023:10:15 14:30:25")) ].

(** The same one level down: no [DateTime], a [DateTimeOriginal] held as
    bytes, a well-formed [DateTimeDigitized]. *)
Definition stray_original : exif_dict :=
  [ (271, VStr (lit "Canon")); (36867, VBytes (lit "2021:03:04 05:06:07"));
    (36868, VStr (lit "2021:03:04 05:06:07")) ].

End ExifSpec.

Module RunSpec.
Import Exif FS Run PhotoWatermark.

(** [w] after the events [t], nothing else changed. *)
Definition logged (w : world) (t : list event) : world :=
  {| dirs := dirs w; files := files w; written := written w;
     trace := trace w ++ t |}.

(** What [get_shooting_date] returns for the outcome of [_getexif]. *)
Definition found_date (r : getexif_result) : option str :=
  match r with
  | ExifDict d =>
      match search_date d with
      | Ok x => x
      | Raise _ => None
      end
  | ExifRaises | ExifNone => None
  end.

(** What it prints. *)
Definition exif_noise (r : getexif_result) : list event :=
  match r with
  | ExifDict d =>
      match search_date d with
      | Ok _ => []
      | Raise _ => [Print MsgExifError]
      end
  | ExifRaises => [Print MsgExifError]
  | ExifNone => []
  end.

(** The pieces of a run of [add_watermark] on a picture. *)
Definition date_text (img : image) : str :=
  match found_date (getexif img) with
  | Some d => d
  | None => placeholder
  end.

Definition lookup_events (p : path) (img : image) : list event :=
  Open p :: Open p :: exif_noise (getexif img) ++
  match found_date (getexif img) with
  | Some _ => []
  | None => [Print (MsgNoDate (name p))]
  end.

Definition fill_of (o : options) : list Z :=
  color o ++ [alpha_of (opacity o)].

Definition text_xy (PIL : pillow) (o : options) (img : image) : Z * Z :=
  let '(x0, y0, x1, y1) :=
    textbbox PIL (load_font PIL (font_size o)) (date_text img) in
  watermark_xy (position o) (width img) (height img) (x1 - x0) (y1 - y0).

Definition drawing (PIL : pillow) (o : options) (img : image) : event :=
  DrawText (text_xy PIL o img) (date_text img) (fill_of o).

Definition saved_as (PIL : pillow) (o : options) (img : image) (q : path) : saved :=
  {| saved_mode := save_mode (lower (name q)); saved_quality := 95;
     saved_text := date_text img; saved_xy := text_xy PIL o img;
     saved_fill := fill_of o |}.

(** [save] finds the directory of [q] and Pillow accepts the write. *)
Definition can_save (PIL : pillow) (w : world) (q : path) (m : mode) : bool :=
  match rev (parent q) with
  | d :: up => is_dir w {| parent := rev up; name := d |}
  | [] => true
  end && save_accepts PIL q m.

Definition failed (p : path) : event := Print (MsgProcessError (name p)).

(** Where the placeholder goes. *)
Definition placeholder_xy (PIL : pillow) (o : options) (img : image) : Z * Z :=
  let '(x0, y0, x1, y1) :=
    textbbox PIL (load_font PIL (font_size o)) placeholder in
  watermark_xy (position o) (width img) (height img) (x1 - x0) (y1 - y0).

End RunSpec.

Module BatchSpec.
Import FS Run PhotoWatermark RunSpec.

(** The twelve endings [process_directory] globs for. *)
Definition patterns : list str :=
  flat_map (fun ext => [ext; upper ext]) supported_formats.

(** An entry the batch takes: its name ends with a supported extension,
    all in lower case or all in upper case. *)
Definition batch_supported (n : str) : bool := existsb (endswith n) patterns.

Definition entries (w : world) (d : path) : list str :=
  if is_dir w d then listdir w d else [].

Definition hits (w : world) (d : path) (ext : str) : list path :=
  map (joinpath d) (filter (fun n => endswith n ext) (entries w d)).

Definition globs (d : path) (exts : list str) : list event :=
  flat_map (fun ext => [Glob d (lit "*" ++ ext);
                        Glob d (lit "*" ++ upper ext)]) exts.

Definition output_dir_of (d : path) : path :=
  sibling d (name d ++ lit "_watermark").

(** The supported entries of a directory, as paths. *)
Definition supported_entries (w : world) (d : path) : list path :=
  map (joinpath d) (filter batch_supported (listdir w d)).

Definition is_saved_msg (e : event) : bool :=
  match e with Print (MsgSaved _) => true | _ => false end.

Definition is_failed_msg (e : event) : bool :=
  match e with Print (MsgFileFailed _) => true | _ => false end.

Definition successes (r : result unit) : nat :=
  match r with Ok _ => 1%nat | Raise _ => 0%nat end.

(** The events of one call: they open [p] and no other file, print no
    batch failure, and print "saved" once if the call returns and not at all
    if it raises. *)
Definition one_file (p : path) (r : result unit) (t : list event) : Prop :=
  (forall q, In (Open q) t <-> q = p) /\
  filter is_failed_msg t = [] /\
  List.length (filter is_saved_msg t) = successes r.

(** The events of the loop over [l]: the files opened are those of [l];
    every file ends in one "saved" or in one logged failure. *)
Definition batch_events (l : list path) (t : list event) : Prop :=
  (forall q, In (Open q) t <-> In q l) /\
  (List.length (filter is_saved_msg t)
   + List.length (filter is_failed_msg t) = List.length l)%nat.

(** [w] after [mkdir(exist_ok=True)] of [p] went through. *)
Definition made (w : world) (p : path) : world :=
  {| dirs := if is_dir w p then dirs w else dirs w ++ [p];
     files := files w; written := written w;
     trace := trace w ++ [Mkdir p] |}.

End BatchSpec.

Import Exif FS Run PhotoWatermark Main.
Import ColorSpec DateSpec ExifSpec RunSpec BatchSpec.

Module LookupSpec.
Import Exif.

(** [exif_data.get(id)]: the value under a key, the first one if the list
    holds several. *)
Fixpoint lookup (id : Z) (d : exif_dict) : option value :=
  match d with
  | [] => None
  | (k, v) :: rest => if k =? id then Some v else lookup id rest
  end.

(** What one date field contributes, read off by key: nothing when the key
    is missing or its text does not parse, the date when it does; a value
    that is no text is a [TypeError]. *)
Definition field_outcome (o : option value) : result (option str) :=
  match o with
  | None => Ok None
  | Some v =>
      match strptime v with
      | Ok dt => Ok (Some (DateTime.strftime dt))
      | Raise ValueError => Ok None
      | Raise e => Raise e
      end
  end.


End LookupSpec.

Import LookupSpec.

Module ScriptSpec.

(** The directory [main] sets out to make for its output: next to a
    supported file, named after its stem; next to a directory, named after
    it.  None for an unsupported file or a missing path. *)
Definition output_dir_for (args : arguments) (w : world) : option path :=
  let p := arg_input_path args in
  if is_file w p then
    if is_supported (lower (suffix (name p)))
    then Some (sibling p (stem (name p) ++ lit "_watermark"))
    else None
  else if is_dir w p then Some (output_dir_of p)
  else None.

(** A file sits where the directory should go. *)
Definition blocked (w : world) (q : path) : bool :=
  negb (is_dir w q) && is_file w q.

(** What [main] prints when it makes no directory. *)
Definition refusal (args : arguments) (w : world) : msg :=
  let p := arg_input_path args in
  if is_file w p then MsgUnsupported (suffix (name p))
  else MsgPathMissing p.

End ScriptSpec.

Import ScriptSpec.

(** ** A concrete host and disk *)

Module Demo.

Definition PIL : pillow :=
  {| platform := lit "linux";
     truetype_loads := fun _ _ => true;
     textbbox := fun _ text => (0, 0, 20 * Z.of_nat (List.length text), 36);
     draw_accepts := fun fill => (List.length fill =? 4)%nat;
     save_accepts := fun _ _ => true |}.

Definition dir (components : list string) : path :=
  {| parent := map lit (removelast components);
     name := lit (last components EmptyString) |}.

Definition picture (r : getexif_result) : content :=
  Picture {| width := 800; height := 600; getexif := r |}.

Definition unset_clock : getexif_result :=
  ExifDict [ (271, VStr (lit "Canon"));
             (306, VStr (lit "0000:00:00 00:00:00")) ].

Definition dated : getexif_result :=
  ExifDict [ (271, VStr (lit "Canon"));
             (36867, VStr (lit "2023:10:15 14:30:25")) ].

(** [/home/pics] holds two pictures, a text file, a GIF and a picture
    whose extension mixes the cases; [/home/empty] holds notes only. *)
Definition disk : world :=
  {| dirs := [dir ["home"]; dir ["home"; "pics"]; dir ["home"; "empty"]]%string;
     files :=
       [ (dir ["home"; "pics"; "a.jpg"], picture dated);
         (dir ["home"; "pics"; "b.txt"], Undecodable);
         (dir ["home"; "pics"; "c.PNG"], picture unset_clock);
         (dir ["home"; "pics"; "d.gif"], picture ExifNone);
         (dir ["home"; "pics"; "e.Jpg"], picture dated);
         (dir ["home"; "empty"; "notes.txt"], Undecodable) ]%string;
     written := [];
     trace := [] |}.

Definition defaults : options :=
  {| font_size := 36; color := [255; 255; 255];
     position := lit "bottom-right";
     opacity := QArith_base.Qmake 4 5 |}.

Definition command_line (input : list string) : arguments :=
  {| arg_input_path := dir input; arg_font_size := 36;
     arg_color := lit "white"; arg_position := lit "bottom-right";
     arg_opacity := QArith_base.Qmake 4 5 |}.

End Demo.

(** * Properties *)

(** ** Basic facts about strings and paths *)

(** Splits a conjunction into its parts, and nothing else. *)
Ltac split_all := repeat match goal with |- _ /\ _ => split end.

Lemma str_eqb_eq (a b : str) : str_eqb a b = true <-> a = b.
Proof.
  revert b; induction a as [|x a IH]; intros [|y b]; simpl;
    try (split; [discriminate | discriminate]); try tauto.
  rewrite andb_true_iff, Ascii.eqb_eq, IH.
  split; [intros [-> ->]; reflexivity | intros E; inversion E; auto].
Qed.

Lemma str_eqb_refl (a : str) : str_eqb a a = true.
Proof. apply str_eqb_eq; reflexivity. Qed.

Lemma str_eqb_neq (a b : str) : str_eqb a b = false <-> a <> b.
Proof.
  rewrite <- str_eqb_eq. destruct (str_eqb a b); split; congruence.
Qed.

Lemma parts_eqb_eq (a b : list str) : FS.parts_eqb a b = true <-> a = b.
Proof.
  revert b; induction a as [|x a IH]; intros [|y b]; simpl;
    try (split; [discriminate | discriminate]); try tauto.
  rewrite andb_true_iff, str_eqb_eq, IH.
  split; [intros [-> ->]; reflexivity | intros E; inversion E; auto].
Qed.

Lemma path_eqb_eq (p q : FS.path) : FS.path_eqb p q = true <-> p = q.
Proof.
  unfold FS.path_eqb. rewrite andb_true_iff, parts_eqb_eq, str_eqb_eq.
  destruct p, q; simpl. split.
  - intros [-> ->]; reflexivity.
  - intros E; inversion E; auto.
Qed.

Lemma path_eqb_refl (p : FS.path) : FS.path_eqb p p = true.
Proof. apply path_eqb_eq; reflexivity. Qed.



(** ** Placement of the text (lines 107-123) *)

(** C4: the four corner anchors keep a margin of 20 from the edges they
    name, the centre anchor halves the free space with floor division, and
    nothing clamps the result: a text wider (taller) than the picture less
    the margin gets a negative x (y) on the right (bottom) anchors, a text
    wider than the picture a negative x at the centre. *)
Theorem watermark_anchor_coordinates
    (img_width img_height x0 y0 x1 y1 : Z) :
  let text_width := x1 - x0 in
  let text_height := y1 - y0 in
  let at_ := fun position : string =>
    PhotoWatermark.watermark_xy (lit position) img_width img_height
      text_width text_height in
  at_ "top-left"%string = (20, 20) /\
  at_ "top-right"%string = (img_width - text_width - 20, 20) /\
  at_ "bottom-left"%string = (20, img_height - text_height - 20) /\
  at_ "bottom-right"%string =
    (img_width - text_width - 20, img_height - text_height - 20) /\
  at_ "center"%string =
    (Z.div (img_width - text_width) 2, Z.div (img_height - text_height) 2) /\
  (fst (at_ "bottom-right"%string) < 0 <-> img_width - 20 < text_width) /\
  (snd (at_ "bottom-right"%string) < 0 <-> img_height - 20 < text_height) /\
  (fst (at_ "top-right"%string) < 0 <-> img_width - 20 < text_width) /\
  (snd (at_ "bottom-left"%string) < 0 <-> img_height - 20 < text_height) /\
  (fst (at_ "center"%string) < 0 <-> img_width < text_width) /\
  (snd (at_ "center"%string) < 0 <-> img_height < text_height).
Proof.
  intros text_width text_height at_.
  unfold at_, PhotoWatermark.watermark_xy; cbn.
  assert (D : forall a, a / 2 < 0 <-> a < 0).
  { intros a. pose proof (Z.div_mod a 2). pose proof (Z.mod_pos_bound a 2).
    lia. }
  rewrite !D. repeat split; lia.
Qed.

(** ** Checking a property of characters on all 256 of them *)


Lemma all_ascii_complete (c : ascii) : In c all_ascii.
Proof.
  unfold all_ascii. apply in_map_iff. exists (nat_of_ascii c). split.
  - apply ascii_nat_embedding.
  - apply in_seq. pose proof (nat_ascii_bounded c). lia.
Qed.

Lemma for_all_ascii (P : ascii -> bool) :
  forallb P all_ascii = true -> forall c, P c = true.
Proof.
  intros H c. rewrite forallb_forall in H. apply H, all_ascii_complete.
Qed.


(** ** [parse_color] (lines 191-215) *)

Module ColorFacts.

#[local] Arguments Ascii.eqb : simpl never.



Lemma hex_not_hash (a : ascii) : is_hex a = true -> Ascii.eqb a "#" = false.
Proof.
  intros Ha.
  assert (H := for_all_ascii
    (fun a => implb (is_hex a) (negb (Ascii.eqb a "#")))
    ltac:(vm_compute; reflexivity) a).
  cbv beta in H. rewrite Ha in H. cbn [implb] in H.
  now destruct (Ascii.eqb a "#").
Qed.


(** A colour name, in any letter case *)






(** A comma-separated list of decimal numerals *)

Lemma dec_char (c : ascii) :
  is_dec c = true ->
  Ascii.eqb c "_" = false /\ Ascii.eqb c "," = false /\
  Ascii.eqb c "+" = false /\ Ascii.eqb c "-" = false /\
  Ascii.eqb c "#" = false /\ int_space c = false /\
  digit_value c = Some (code c - 48) /\ (code c - 48 <? 10) = true.
Proof.
  intros Hc.
  assert (H := for_all_ascii
    (fun c => implb (is_dec c)
      (negb (Ascii.eqb c "_") && negb (Ascii.eqb c ",") &&
       negb (Ascii.eqb c "+") && negb (Ascii.eqb c "-") &&
       negb (Ascii.eqb c "#") && negb (int_space c) &&
       match digit_value c with
       | Some d => (d =? code c - 48) && (d <? 10)
       | None => false
       end))
    ltac:(vm_compute; reflexivity) c).
  cbv beta in H. rewrite Hc in H. cbn [implb] in H.
  rewrite !andb_true_iff, !negb_true_iff in H.
  destruct H as [[[[[[H1 H2] H3] H4] H5] H6] H7].
  destruct (digit_value c) as [d|]; [|discriminate].
  rewrite andb_true_iff in H7. destruct H7 as [E L].
  apply Z.eqb_eq in E. subst d. repeat split; assumption.
Qed.

Lemma scan_digits_numeral (s : str) (acc : Z) :
  forallb is_dec s = true ->
  scan_digits 10 acc false s =
    Some (fold_left (fun a c => a * 10 + (code c - 48)) s acc, []).
Proof.
  revert acc. induction s as [|c s IH]; intros acc H; simpl; [reflexivity|].
  simpl in H. apply andb_true_iff in H. destruct H as [Hc Hs].
  destruct (dec_char c Hc) as (E1 & _ & _ & _ & _ & _ & E7 & E8).
  rewrite E1, E7, E8. apply IH, Hs.
Qed.

Lemma int_numeral (s : str) : numeral s -> int 10 s = Some (dec_val s).
Proof.
  intros [Hne H]. destruct s as [|c s]; [congruence|].
  pose proof H as H'. simpl in H'. apply andb_true_iff in H'.
  destruct H' as [Hc _].
  destruct (dec_char c Hc) as (_ & _ & E3 & E4 & _ & E6 & E7 & E8).
  unfold int. cbn [skip_space]. rewrite E6.
  unfold skip_sign. rewrite E3, E4.
  unfold skip_prefix. change (10 =? 16) with false. cbv iota.
  unfold is_digit_in. rewrite E7, E8.
  rewrite (scan_digits_numeral _ 0 H). cbn [skip_space].
  unfold dec_val. f_equal. lia.
Qed.








End ColorFacts.

Import ColorFacts.



(** Some inputs of each kind. *)
Example parse_color_examples :
  parse_color (lit "Yellow") = [255; 255; 0] /\
  parse_color (lit "#00FF00") = [0; 255; 0] /\
  parse_color (lit "12,34,56") = [12; 34; 56] /\
  parse_color (lit "#12") = [255; 255; 255] /\
  parse_color (lit "orange") = [255; 255; 255].
Proof. split_all; vm_compute; reflexivity. Qed.

(** ** [strptime] on well-formed time stamps *)

Module DateFacts.
Import Re DateTime.


Lemma strptime_str_raises (s : str) (e : exn) :
  strptime_str s = Raise e -> e = ValueError.
Proof.
  unfold strptime_str.
  destruct (rmatch format_regex s) as [[g [|c r]]|];
    try (intros E; inversion E; reflexivity).
  destruct (field g "Y"), (field g "m"), (field g "d"), (field g "H"),
    (field g "M"), (field g "S");
    try (intros E; inversion E; reflexivity).
  destruct (valid_date z z0 z1 && valid_time z2 z3 z4);
    intros E; inversion E; reflexivity.
Qed.

Lemma below (n : nat) (x : Z) :
  0 <= x < Z.of_nat n -> In x (map Z.of_nat (seq 0 n)).
Proof.
  intros H. apply in_map_iff. exists (Z.to_nat x).
  split; [lia | apply in_seq; lia].
Qed.

(** Runs the case analysis [x = 0 \/ x = 1 \/ ...] of [C], closing each
    case with [tac]. *)
Ltac each_case C x tac :=
  cbn in C;
  repeat (destruct C as [C|C]; [subst x; tac|]);
  try contradiction.

Ltac by_continuation K :=
  unfold pad2, digit_char in *; cbn in *; rewrite K; reflexivity.

Lemma digit_char_dec (d : Z) :
  0 <= d <= 9 ->
  ColorSpec.is_dec (digit_char d) = true /\ code (digit_char d) - 48 = d.
Proof.
  intros H. assert (C : In d (map Z.of_nat (seq 0 10))) by (apply below; lia).
  each_case C d ltac:(split; reflexivity).
Qed.

Lemma run_Y (y : Z) (rest : str) (g : groups) (k : @cont (groups * str)) :
  0 <= y <= 9999 ->
  run re_Y (pad4 y ++ rest) g k = k (("Y"%string, pad4 y) :: g) (pad4 y) rest.
Proof.
  intros H. unfold pad4, re_Y, d09.
  assert (D : forall d, 0 <= d <= 9 -> in_range 48 57 (digit_char d) = true).
  { intros d Hd. apply (digit_char_dec d Hd). }
  cbn [run app].
  rewrite !D by (Z.div_mod_to_equations; lia). reflexivity.
Qed.

Lemma run_colon (rest : str) (g : groups) (k : @cont (groups * str)) :
  run (one ":") (":"%char :: rest) g k = k g [":"%char] rest.
Proof. reflexivity. Qed.

Lemma run_m (m : Z) (rest : str) (g : groups) (k : @cont (groups * str)) x :
  1 <= m <= 12 ->
  k (("m"%string, pad2 m) :: g) (pad2 m) rest = Some x ->
  run re_m (pad2 m ++ rest) g k = Some x.
Proof.
  intros H K. assert (C : In m (map Z.of_nat (seq 0 13))) by (apply below; lia).
  each_case C m ltac:(first [lia | by_continuation K]).
Qed.

Lemma run_d (d : Z) (rest : str) (g : groups) (k : @cont (groups * str)) x :
  1 <= d <= 31 ->
  k (("d"%string, pad2 d) :: g) (pad2 d) rest = Some x ->
  run re_d (pad2 d ++ rest) g k = Some x.
Proof.
  intros H K. assert (C : In d (map Z.of_nat (seq 0 32))) by (apply below; lia).
  each_case C d ltac:(first [lia | by_continuation K]).
Qed.

Lemma run_space (h : Z) (rest : str)
    (k : str -> str -> option (groups * str)) :
  0 <= h <= 23 ->
  plus_from re_space (" "%char :: pad2 h ++ rest) k =
    k [" "%char] (pad2 h ++ rest).
Proof.
  intros H. assert (C : In h (map Z.of_nat (seq 0 24))) by (apply below; lia).
  each_case C h ltac:(reflexivity).
Qed.

Lemma run_H (h : Z) (rest : str) (g : groups) (k : @cont (groups * str)) x :
  0 <= h <= 23 ->
  k (("H"%string, pad2 h) :: g) (pad2 h) rest = Some x ->
  run re_H (pad2 h ++ rest) g k = Some x.
Proof.
  intros H K. assert (C : In h (map Z.of_nat (seq 0 24))) by (apply below; lia).
  each_case C h ltac:(by_continuation K).
Qed.

Lemma run_M (m : Z) (rest : str) (g : groups) (k : @cont (groups * str)) x :
  0 <= m <= 59 ->
  k (("M"%string, pad2 m) :: g) (pad2 m) rest = Some x ->
  run re_M (pad2 m ++ rest) g k = Some x.
Proof.
  intros H K. assert (C : In m (map Z.of_nat (seq 0 60))) by (apply below; lia).
  each_case C m ltac:(by_continuation K).
Qed.

Lemma run_S (s : Z) (rest : str) (g : groups) (k : @cont (groups * str)) x :
  0 <= s <= 59 ->
  k (("S"%string, pad2 s) :: g) (pad2 s) rest = Some x ->
  run re_S (pad2 s ++ rest) g k = Some x.
Proof.
  intros H K. assert (C : In s (map Z.of_nat (seq 0 60))) by (apply below; lia).
  each_case C s ltac:(by_continuation K).
Qed.

Lemma int_pad4 (y : Z) : 0 <= y <= 9999 -> int 10 (pad4 y) = Some y.
Proof.
  intros H.
  assert (D : forall d, 0 <= d <= 9 ->
    ColorSpec.is_dec (digit_char d) = true /\ code (digit_char d) - 48 = d)
    by exact digit_char_dec.
  destruct (D (y / 1000 mod 10)) as [A1 B1]; [Z.div_mod_to_equations; lia|].
  destruct (D (y / 100 mod 10)) as [A2 B2]; [Z.div_mod_to_equations; lia|].
  destruct (D (y / 10 mod 10)) as [A3 B3]; [Z.div_mod_to_equations; lia|].
  destruct (D (y mod 10)) as [A4 B4]; [Z.div_mod_to_equations; lia|].
  rewrite ColorFacts.int_numeral.
  - unfold ColorSpec.dec_val, pad4. cbn [fold_left].
    rewrite B1, B2, B3, B4. f_equal. Z.div_mod_to_equations. lia.
  - split; [discriminate|]. unfold pad4. cbn [forallb].
    rewrite A1, A2, A3, A4. reflexivity.
Qed.

Lemma int_pad2 (n : Z) : 0 <= n <= 99 -> int 10 (pad2 n) = Some n.
Proof.
  intros H.
  destruct (digit_char_dec (n / 10 mod 10)) as [A1 B1];
    [Z.div_mod_to_equations; lia|].
  destruct (digit_char_dec (n mod 10)) as [A2 B2];
    [Z.div_mod_to_equations; lia|].
  rewrite ColorFacts.int_numeral.
  - unfold ColorSpec.dec_val, pad2. cbn [fold_left].
    rewrite B1, B2. f_equal. Z.div_mod_to_equations. lia.
  - split; [discriminate|]. unfold pad2. cbn [forallb].
    rewrite A1, A2. reflexivity.
Qed.

Lemma valid_date_bounds (y m d : Z) :
  valid_date y m d = true ->
  1 <= y <= 9999 /\ 1 <= m <= 12 /\ 1 <= d <= 31.
Proof.
  unfold valid_date, days_in_month. rewrite !andb_true_iff, !Z.leb_le.
  intros [[[[[? ?] ?] ?] ?] L].
  destruct (m =? 2);
    [destruct (is_leap y)
    | destruct ((m =? 4) || (m =? 6) || (m =? 9) || (m =? 11))]; lia.
Qed.

Lemma valid_time_bounds (h mi s : Z) :
  valid_time h mi s = true -> 0 <= h <= 23 /\ 0 <= mi <= 59 /\ 0 <= s <= 59.
Proof.
  unfold valid_time. rewrite !andb_true_iff, !Z.leb_le. lia.
Qed.

Lemma rmatch_stamp (y m d h mi s : Z) :
  valid_date y m d = true -> valid_time h mi s = true ->
  rmatch format_regex (stamp y m d h mi s) =
    Some ([("S", pad2 s); ("M", pad2 mi); ("H", pad2 h);
           ("d", pad2 d); ("m", pad2 m); ("Y", pad4 y)]%string, []).
Proof.
  intros Vd Vt.
  destruct (valid_date_bounds _ _ _ Vd) as (By & Bm & Bd).
  destruct (valid_time_bounds _ _ _ Vt) as (Bh & Bmi & Bs).
  unfold rmatch, format_regex, stamp. cbn [run].
  rewrite run_Y by lia. rewrite run_colon.
  apply run_m; [lia|]. rewrite run_colon.
  apply run_d; [lia|]. rewrite run_space by lia.
  apply run_H; [lia|]. rewrite run_colon.
  apply run_M; [lia|]. rewrite run_colon.
  rewrite <- (app_nil_r (pad2 s)) at 1.
  apply run_S; [lia|]. reflexivity.
Qed.

(** A valid time stamp in the EXIF layout parses to its six numbers. *)
Lemma strptime_stamp (y m d h mi s : Z) :
  valid_date y m d = true -> valid_time h mi s = true ->
  strptime_str (stamp y m d h mi s) =
    Ok {| year := y; month := m; day := d;
          hour := h; minute := mi; second := s |}.
Proof.
  intros Vd Vt.
  destruct (valid_date_bounds _ _ _ Vd) as (By & Bm & Bd).
  destruct (valid_time_bounds _ _ _ Vt) as (Bh & Bmi & Bs).
  unfold strptime_str. rewrite (rmatch_stamp _ _ _ _ _ _ Vd Vt).
  unfold field. cbn [group String.eqb Ascii.eqb Bool.eqb].
  rewrite int_pad4 by lia. rewrite !int_pad2 by lia.
  rewrite Vd, Vt. reflexivity.
Qed.

(** and [strftime] gives back its date, digit for digit. *)
Lemma strftime_stamp (y m d h mi s : Z) :
  strftime {| year := y; month := m; day := d;
              hour := h; minute := mi; second := s |} =
  date_portion (stamp y m d h mi s).
Proof.
  assert (D : forall n, Ascii.eqb (digit_char (n mod 10)) ":" = false).
  { intros n.
    assert (C : In (n mod 10) (map Z.of_nat (seq 0 10))).
    { apply below. pose proof (Z.mod_pos_bound n 10). lia. }
    revert C. generalize (n mod 10). intros x C.
    each_case C x ltac:(reflexivity). }
  unfold strftime, date_portion, stamp, pad4, pad2.
  cbn [year month day app firstn map lit list_ascii_of_string].
  rewrite !D. reflexivity.
Qed.

End DateFacts.

(** ** The search through the EXIF dict (lines 44-67) *)

Module ExifFacts.
Import DateTime Exif DateFacts.

Lemma tag_is_date (id : Z) :
  tag_is (TAGS_get TAGS id) "DateTime" = (id =? 306) /\
  tag_is (TAGS_get TAGS id) "DateTimeOriginal" = (id =? 36867) /\
  tag_is (TAGS_get TAGS id) "DateTimeDigitized" = (id =? 36868).
Proof.
  unfold TAGS. cbn [TAGS_get].
  repeat match goal with
  | |- context [?k =? id] =>
      destruct (Z.eqb_spec k id); [subst id; repeat split; reflexivity|]
  end.
  unfold tag_is. repeat split; symmetry; apply Z.eqb_neq; congruence.
Qed.


Lemma tag_is_id (n : string) (id : Z) :
  In n date_names -> tag_is (TAGS_get TAGS id) n = (id =? id_of n).
Proof.
  destruct (tag_is_date id) as (A & B & C).
  intros [<-|[<-|[<-|[]]]]; assumption.
Qed.


Lemma strptime_raises (v : value) (e : exn) :
  strptime v = Raise e -> e = ValueError \/ e = TypeError.
Proof.
  destruct v as [s| | |]; simpl; intros E.
  - left. exact (strptime_str_raises _ _ E).
  - inversion E; auto.
  - inversion E; auto.
  - inversion E; auto.
Qed.

(** What one pass returns, it returns as the specification has it; what it
    raises is a [TypeError]. *)
Lemma scan_for_sound (n : string) (d : exif_dict) :
  In n date_names ->
  match scan_for n d with
  | Ok r => r = first_date (id_of n) d
  | Raise e => e = TypeError
  end.
Proof.
  intros Hn. induction d as [|[k v] d IH]; cbn [scan_for first_date];
    [reflexivity|].
  rewrite (tag_is_id n k Hn). destruct (k =? id_of n); [|exact IH].
  unfold date_of. destruct (strptime v) as [dt|e] eqn:E; [reflexivity|].
  destruct (strptime_raises _ _ E) as [-> | ->]; [exact IH | reflexivity].
Qed.

Lemma scan_for_text (n : string) (d : exif_dict) :
  In n date_names ->
  (forall k v, In (k, v) d -> k = id_of n -> exists s, v = VStr s) ->
  scan_for n d = Ok (first_date (id_of n) d).
Proof.
  intros Hn. induction d as [|[k v] d IH]; intros T;
    cbn [scan_for first_date]; [reflexivity|].
  rewrite (tag_is_id n k Hn).
  assert (T' : forall k v, In (k, v) d -> k = id_of n -> exists s, v = VStr s).
  { intros k' v' I. apply T. right. exact I. }
  destruct (Z.eqb_spec k (id_of n)) as [E|E]; [|exact (IH T')].
  destruct (T k v (or_introl eq_refl) E) as [s ->].
  unfold date_of. simpl. destruct (strptime_str s) as [dt|e] eqn:P.
  - reflexivity.
  - rewrite (strptime_str_raises _ _ P). exact (IH T').
Qed.

Lemma search_date_sound (d : exif_dict) :
  match search_date d with
  | Ok r => r = spec_date d
  | Raise e => e = TypeError
  end.
Proof.
  unfold search_date, spec_date, date_tags. cbn [scan_each].
  pose proof (scan_for_sound "DateTime" d) as A.
  pose proof (scan_for_sound "DateTimeOriginal" d) as B.
  pose proof (scan_for_sound "DateTimeDigitized" d) as C.
  change (id_of "DateTime") with 306 in A.
  change (id_of "DateTimeOriginal") with 36867 in B.
  change (id_of "DateTimeDigitized") with 36868 in C.
  specialize (A ltac:(simpl; auto)). specialize (B ltac:(simpl; auto)).
  specialize (C ltac:(simpl; auto)).
  destruct (scan_for "DateTime" d) as [[x|]|e]; [rewrite <- A; reflexivity | | exact A].
  rewrite <- A.
  destruct (scan_for "DateTimeOriginal" d) as [[x|]|e];
    [rewrite <- B; reflexivity | | exact B].
  rewrite <- B.
  destruct (scan_for "DateTimeDigitized" d) as [[x|]|e];
    [rewrite <- C; reflexivity | rewrite <- C; reflexivity | exact C].
Qed.

(** On a dict whose date fields hold text, the code is the specification's
    search. *)
Lemma search_date_text (d : exif_dict) :
  text_dates d -> search_date d = Ok (spec_date d).
Proof.
  intros T.
  assert (S : forall n, In n date_names ->
    scan_for n d = Ok (first_date (id_of n) d)).
  { intros n Hn. apply scan_for_text; [exact Hn|].
    intros k v I E. apply (T k v I). subst k.
    destruct Hn as [<-|[<-|[<-|[]]]]; simpl; auto. }
  unfold search_date, spec_date, date_tags. cbn [scan_each].
  rewrite (S "DateTime"%string) by (simpl; auto).
  rewrite (S "DateTimeOriginal"%string) by (simpl; auto).
  rewrite (S "DateTimeDigitized"%string) by (simpl; auto).
  change (id_of "DateTime") with 306.
  change (id_of "DateTimeOriginal") with 36867.
  change (id_of "DateTimeDigitized") with 36868.
  destruct (first_date 306 d); [reflexivity|].
  destruct (first_date 36867 d); [reflexivity|].
  destruct (first_date 36868 d); reflexivity.
Qed.

End ExifFacts.

(** ** Runs of [get_shooting_date] and [add_watermark] *)

Module RunFacts.
Import Exif FS Run PhotoWatermark.


Lemma logged_logged (w : world) (t u : list event) :
  logged (logged w t) u = logged w (t ++ u).
Proof. unfold logged; simpl. rewrite app_assoc. reflexivity. Qed.


Lemma bind_ok {A B} (m : M A) (k : A -> M B) (w w' : world) (a : A) :
  m w = (Ok a, w') -> bind m k w = k a w'.
Proof. intros E. unfold bind. rewrite E. reflexivity. Qed.

Lemma bind_print {B} (m : msg) (k : unit -> M B) (w : world) :
  bind (print m) k w = k tt (logged w [Print m]).
Proof. reflexivity. Qed.

Ltac run_unfold :=
  unfold add_watermark, get_shooting_date, image_open, draw_text, save,
    mkdir_exist_ok, glob, try_except, bind, ret, raise, lift, emit, print,
    get, put_written, put_dir;
  cbn [fst snd dirs files written trace].

Ltac log_eq :=
  unfold logged; cbn [fst snd dirs files written trace];
  rewrite <- ?app_assoc; reflexivity.

Section Runs.

Variable PIL : pillow.

Lemma get_shooting_date_picture (p : path) (w : world) (img : image) :
  read (files w) p = Some (Picture img) ->
  get_shooting_date p w =
    (Ok (found_date (getexif img)),
     logged w (Open p :: exif_noise (getexif img))).
Proof.
  intros R. run_unfold. rewrite R.
  unfold found_date, exif_noise.
  destruct (getexif img) as [| |d]; cbn; try log_eq.
  destruct (search_date d) as [x|e]; cbn; log_eq.
Qed.

Lemma get_shooting_date_unreadable (p : path) (w : world) :
  (forall img, read (files w) p <> Some (Picture img)) ->
  get_shooting_date p w = (Ok None, logged w [Open p; Print MsgExifError]).
Proof.
  intros R. run_unfold.
  destruct (read (files w) p) as [[|img]|] eqn:E; cbn; try log_eq.
  exfalso. exact (R img eq_refl).
Qed.

(** [get_shooting_date] never raises. *)
Lemma get_shooting_date_returns (p : path) (w : world) :
  exists r t, get_shooting_date p w = (Ok r, logged w t).
Proof.
  destruct (read (files w) p) as [[|img]|] eqn:E.
  - eexists _, _. apply get_shooting_date_unreadable. congruence.
  - eexists _, _. apply get_shooting_date_picture. exact E.
  - eexists _, _. apply get_shooting_date_unreadable. congruence.
Qed.


Lemma lookup_events_no_save p img q m : ~ In (Save q m) (lookup_events p img).
Proof.
  unfold lookup_events, exif_noise.
  destruct (getexif img) as [| |d]; cbn [found_date];
    [| |destruct (search_date d) as [[x|]|e]];
    cbn [app In]; intuition discriminate.
Qed.

Lemma add_watermark_unreadable p a o w :
  (forall img, read (files w) p <> Some (Picture img)) ->
  add_watermark PIL p a o w = (Raise OSError, logged w [Open p; failed p]).
Proof.
  intros R. run_unfold.
  destruct (read (files w) p) as [[|img]|] eqn:E; cbn; try log_eq.
  exfalso. exact (R img eq_refl).
Qed.

Lemma add_watermark_fill_refused p a o w img :
  read (files w) p = Some (Picture img) ->
  draw_accepts PIL (fill_of o) = false ->
  add_watermark PIL p a o w =
    (Raise TypeError, logged w (lookup_events p img ++ [failed p])).
Proof.
  intros R D. unfold add_watermark, try_except, bind.
  unfold image_open at 1. unfold bind, emit, get; cbn [files].
  rewrite R. unfold ret at 1.
  rewrite (get_shooting_date_picture p _ img) by exact R.
  unfold lookup_events, text_xy, date_text, fill_of in *.
  destruct (found_date (getexif img)) as [d|]; run_unfold; cbn;
    destruct (textbbox PIL _ _) as [[[x0 y0] x1] y1];
    rewrite D; cbn; log_eq.
Qed.

Lemma add_watermark_as_path p q o w img :
  read (files w) p = Some (Picture img) ->
  draw_accepts PIL (fill_of o) = true ->
  add_watermark PIL p (AsPath q) o w =
    (Raise AttributeError,
     logged w (lookup_events p img ++ [drawing PIL o img; failed p])).
Proof.
  intros R D. unfold add_watermark, try_except, bind.
  unfold image_open at 1. unfold bind, emit, get; cbn [files].
  rewrite R. unfold ret at 1.
  rewrite (get_shooting_date_picture p _ img) by exact R.
  unfold drawing, lookup_events, text_xy, date_text, fill_of in *.
  destruct (found_date (getexif img)) as [d|]; run_unfold; cbn;
    destruct (textbbox PIL _ _) as [[[x0 y0] x1] y1];
    rewrite D; cbn; log_eq.
Qed.

Lemma add_watermark_as_str p q o w img :
  read (files w) p = Some (Picture img) ->
  draw_accepts PIL (fill_of o) = true ->
  add_watermark PIL p (AsStr q) o w =
    if can_save PIL w q (save_mode (lower (name q))) then
      (Ok tt,
       {| dirs := dirs w; files := files w;
          written := written w ++ [(q, saved_as PIL o img q)];
          trace := trace w ++ lookup_events p img ++
                   [drawing PIL o img; Save q (save_mode (lower (name q)));
                    Print (MsgSaved (name q))] |})
    else
      (Raise OSError,
       logged w (lookup_events p img ++
                 [drawing PIL o img; Save q (save_mode (lower (name q)));
                  failed p])).
Proof.
  intros R D. unfold add_watermark, try_except, bind.
  unfold image_open at 1. unfold bind, emit, get; cbn [files].
  rewrite R. unfold ret at 1.
  rewrite (get_shooting_date_picture p _ img) by exact R.
  unfold can_save, saved_as, drawing, lookup_events, text_xy, date_text,
    fill_of in *.
  destruct (found_date (getexif img)) as [d|]; run_unfold; cbn;
    destruct (textbbox PIL _ _) as [[[x0 y0] x1] y1];
    rewrite D; cbn;
    unfold is_dir; cbn [dirs];
    match goal with
    | |- context [if ?c && ?s then _ else _] => destruct (c && s)
    end; cbn; try log_eq; unfold logged; cbn; rewrite <- ?app_assoc;
    reflexivity.
Qed.

End Runs.

End RunFacts.

(** * C1 and C5: the date lookup *)

Import Exif FS Run PhotoWatermark Main.
Import DateFacts ExifFacts RunFacts.

(** A valid stamp under the first entry of a date tag is what that tag
    yields, its date digit for digit. *)
Lemma first_date_stamp (id : Z) (rest : exif_dict) (y m d h mi s : Z) :
  DateTime.valid_date y m d = true -> DateTime.valid_time h mi s = true ->
  first_date id ((id, VStr (stamp y m d h mi s)) :: rest) =
    Some (date_portion (stamp y m d h mi s)).
Proof.
  intros Vd Vt. cbn [first_date]. rewrite Z.eqb_refl.
  unfold date_of, strptime. rewrite (strptime_stamp _ _ _ _ _ _ Vd Vt).
  rewrite strftime_stamp. reflexivity.
Qed.

(** With text in every date field, [get_shooting_date] finds what the
    specification's search finds. *)
Lemma found_date_text (d : exif_dict) :
  text_dates d -> found_date (ExifDict d) = spec_date d.
Proof.
  intros T. unfold found_date. rewrite (search_date_text d T). reflexivity.
Qed.


(** C1 at its failing input: the value of [DateTimeOriginal] matches the
    pattern and the specification's search returns its date, but the
    [DateTime] value, which is no text, is not skipped: [strptime] raises
    [TypeError], the search ends, and [get_shooting_date] reports the
    error and returns [None]. *)
Theorem nontext_candidate_is_fatal :
  strptime (VStr (lit "2023:10:15 14:30:25")) =
    Ok {| DateTime.year := 2023; DateTime.month := 10; DateTime.day := 15;
          DateTime.hour := 14; DateTime.minute := 30;
          DateTime.second := 25 |} /\
  date_of (VInt 0) = None /\
  spec_date stray_datetime = Some (lit "2023-10-15") /\
  search_date stray_datetime = Raise TypeError /\
  (forall p w img,
     read (files w) p = Some (Picture img) ->
     getexif img = ExifDict stray_datetime ->
     get_shooting_date p w =
       (Ok None, logged w [Open p; Print MsgExifError])).
Proof.
  split; [vm_compute; reflexivity|].
  split; [vm_compute; reflexivity|].
  split; [vm_compute; reflexivity|].
  split; [vm_compute; reflexivity|].
  intros p w img R G.
  rewrite (get_shooting_date_picture p w img R), G. reflexivity.
Qed.

(** C5 at its failing input: no usable primary tag and an alternate with a
    valid value, yet the alternate is not used, whether the unusable value
    sits under the primary tag or under the first alternate. *)
Theorem alternate_lost_after_nontext :
  first_date 306 stray_datetime = None /\
  first_date 36867 stray_datetime = Some (lit "2023-10-15") /\
  found_date (ExifDict stray_datetime) = None /\
  first_date 306 stray_original = None /\
  first_date 36867 stray_original = None /\
  first_date 36868 stray_original = Some (lit "2021-03-04") /\
  search_date stray_original = Raise TypeError /\
  found_date (ExifDict stray_original) = None.
Proof. split_all; vm_compute; reflexivity. Qed.

(** * C3: no usable time stamp *)


Lemma first_date_none (id : Z) (d : exif_dict) :
  In id [306; 36867; 36868] ->
  (forall k v, In (k, v) d -> In k [306; 36867; 36868] -> date_of v = None) ->
  first_date id d = None.
Proof.
  intros Hid. induction d as [|[k v] d IH]; intros U; simpl; [reflexivity|].
  assert (U' : forall k v, In (k, v) d -> In k [306; 36867; 36868] ->
                           date_of v = None).
  { intros k' v' I. apply U. right. exact I. }
  destruct (Z.eqb_spec k id) as [->|_]; [|exact (IH U')].
  rewrite (U id v (or_introl eq_refl) Hid). exact (IH U').
Qed.

Lemma found_date_none (r : getexif_result) :
  no_usable_timestamp r -> found_date r = None.
Proof.
  destruct r as [| |d]; simpl; try reflexivity. intros U.
  pose proof (search_date_sound d) as S.
  destruct (search_date d) as [x|e]; [|reflexivity].
  subst x. unfold spec_date.
  rewrite !first_date_none by (simpl; auto). reflexivity.
Qed.

Section NoTimestamp.

Variable PIL : pillow.
Variables (p : path) (a : path_arg) (o : options) (w : world) (img : image).

Hypothesis readable : read (files w) p = Some (Picture img).
Hypothesis unusable : no_usable_timestamp (getexif img).

(** C3: the lookup returns [None] and raises nothing; [add_watermark] goes
    on: it prints its warning, draws the placeholder (when Pillow accepts
    the fill colour), and whatever text it draws or saves is the
    placeholder. *)
Theorem placeholder_when_no_timestamp :
  fst (get_shooting_date p w) = Ok None /\
  exists t,
    trace (snd (add_watermark PIL p a o w)) = trace w ++ t /\
    In (Print (MsgNoDate (name p))) t /\
    (draw_accepts PIL (color o ++ [alpha_of (opacity o)]) = true ->
     In (DrawText (placeholder_xy PIL o img) placeholder
           (color o ++ [alpha_of (opacity o)])) t) /\
    (forall xy' text fill, In (DrawText xy' text fill) t ->
       text = placeholder) /\
    (forall q s, In (q, s) (written (snd (add_watermark PIL p a o w))) ->
       In (q, s) (written w) \/ saved_text s = placeholder).
Proof.
  pose proof (found_date_none _ unusable) as F.
  assert (T : date_text img = placeholder).
  { unfold date_text. rewrite F. reflexivity. }
  assert (X : text_xy PIL o img = placeholder_xy PIL o img).
  { unfold text_xy, placeholder_xy. rewrite T. reflexivity. }
  assert (L : In (Print (MsgNoDate (name p))) (lookup_events p img)).
  { unfold lookup_events. rewrite F. right. right.
    apply in_or_app. right. left. reflexivity. }
  assert (N : forall xy' text fill,
    ~ In (DrawText xy' text fill) (lookup_events p img)).
  { intros xy' text fill. unfold lookup_events, exif_noise. rewrite F.
    destruct (getexif img) as [| |d]; [| |destruct (search_date d)];
      cbn; intuition discriminate. }
  split.
  { rewrite (get_shooting_date_picture p w img readable), F. reflexivity. }
  change (color o ++ [alpha_of (opacity o)]) with (fill_of o).
  destruct (draw_accepts PIL (fill_of o)) eqn:D.
  - destruct a as [q|q].
    + rewrite (add_watermark_as_str PIL p q o w img readable D).
      destruct (can_save PIL w q _); cbn [snd trace written logged].
      * eexists. split; [reflexivity|]. repeat split.
        -- apply in_or_app. left. exact L.
        -- intros _. apply in_or_app. right. left.
           unfold drawing. rewrite T, X. reflexivity.
        -- intros xy' text fill I. apply in_app_or in I.
           destruct I as [I|I]; [exfalso; exact (N _ _ _ I)|].
           cbn in I. destruct I as [I|[I|[I|[]]]]; try discriminate.
           unfold drawing in I. inversion I. exact T.
        -- intros q' s I. apply in_app_or in I.
           destruct I as [I|[I|[]]]; [left; exact I|].
           right. inversion I. exact T.
      * eexists. split; [reflexivity|]. repeat split.
        -- apply in_or_app. left. exact L.
        -- intros _. apply in_or_app. right. left.
           unfold drawing. rewrite T, X. reflexivity.
        -- intros xy' text fill I. apply in_app_or in I.
           destruct I as [I|I]; [exfalso; exact (N _ _ _ I)|].
           cbn in I. destruct I as [I|[I|[I|[]]]]; try discriminate.
           unfold drawing in I. inversion I. exact T.
        -- intros q' s I. left. exact I.
    + rewrite (add_watermark_as_path PIL p q o w img readable D).
      cbn [snd trace written logged].
      eexists. split; [reflexivity|]. repeat split.
      * apply in_or_app. left. exact L.
      * intros _. apply in_or_app. right. left.
        unfold drawing. rewrite T, X. reflexivity.
      * intros xy' text fill I. apply in_app_or in I.
        destruct I as [I|I]; [exfalso; exact (N _ _ _ I)|].
        cbn in I. destruct I as [I|[I|[]]]; try discriminate.
        unfold drawing in I. inversion I. exact T.
      * intros q' s I. left. exact I.
  - rewrite (add_watermark_fill_refused PIL p a o w img readable D).
    cbn [snd trace written logged].
    eexists. split; [reflexivity|]. repeat split.
    + apply in_or_app. left. exact L.
    + discriminate.
    + intros xy' text fill I. apply in_app_or in I.
      destruct I as [I|I]; [exfalso; exact (N _ _ _ I)|].
      cbn in I. destruct I as [I|[]]; discriminate.
    + intros q' s I. left. exact I.
Qed.

End NoTimestamp.


Lemma placeholder_when_no_timestamp_witness :
  fst (get_shooting_date (Demo.dir ["home"; "pics"; "c.PNG"]%string)
         Demo.disk) = Ok None /\
  exists t,
    trace (snd (add_watermark Demo.PIL
                  (Demo.dir ["home"; "pics"; "c.PNG"]%string)
                  (AsStr (Demo.dir ["home"; "pics"; "out.png"]%string))
                  Demo.defaults Demo.disk)) = trace Demo.disk ++ t /\
    In (Print (MsgNoDate (lit "c.PNG"))) t.
Proof.
  destruct (placeholder_when_no_timestamp Demo.PIL
              (Demo.dir ["home"; "pics"; "c.PNG"]%string)
              (AsStr (Demo.dir ["home"; "pics"; "out.png"]%string))
              Demo.defaults Demo.disk
              {| width := 800; height := 600; getexif := Demo.unset_clock |}
              eq_refl)
    as [A [t [B [C _]]]].
  - intros k v [E|[E|[]]] _; inversion E; subst; vm_compute; reflexivity.
  - split; [exact A|]. exists t. split; [exact B | exact C].
Defined.

(** * C7: an unsupported single file *)

(** C7: when the input is a file whose suffix, in lower case, is not one
    of the supported formats, [main] prints the unsupported-format error and
    stops: no directory is created and nothing is written. *)
Theorem unsupported_single_file_rejected
    (PIL : pillow) (order : list str) (args : arguments) (w : world) :
  is_file w (arg_input_path args) = true ->
  is_supported (lower (suffix (name (arg_input_path args)))) = false ->
  main PIL order args w =
    (Ok tt,
     logged w [Print (MsgUnsupported (suffix (name (arg_input_path args))))])
  /\ dirs (snd (main PIL order args w)) = dirs w
  /\ written (snd (main PIL order args w)) = written w.
Proof.
  intros F U.
  assert (E : main PIL order args w =
    (Ok tt,
     logged w [Print (MsgUnsupported (suffix (name (arg_input_path args))))])).
  { unfold main, bind, get. rewrite F, U. reflexivity. }
  rewrite E. repeat split.
Qed.

Lemma unsupported_single_file_rejected_witness :
  main Demo.PIL supported_formats
    (Demo.command_line ["home"; "pics"; "d.gif"]%string) Demo.disk =
    (Ok tt, logged Demo.disk [Print (MsgUnsupported (lit ".gif"))]).
Proof.
  exact (proj1 (unsupported_single_file_rejected Demo.PIL supported_formats
                  (Demo.command_line ["home"; "pics"; "d.gif"]%string)
                  Demo.disk eq_refl eq_refl)).
Defined.

(** * C8: the mode of the saved picture *)

(** Given the output file name as a [str], [add_watermark] saves an RGB
    picture when the name ends in [.jpg] or [.jpeg], whatever the letter
    case, and the RGBA picture otherwise. *)
Lemma saved_mode_of_str_name (PIL : pillow) p q o w img :
  read (files w) p = Some (Picture img) ->
  draw_accepts PIL (fill_of o) = true ->
  can_save PIL w q (save_mode (lower (name q))) = true ->
  let m := if endswith (lower (name q)) (lit ".jpg")
              || endswith (lower (name q)) (lit ".jpeg")
           then RGB else RGBA in
  exists w',
    add_watermark PIL p (AsStr q) o w = (Ok tt, w') /\
    written w' = written w ++ [(q, saved_as PIL o img q)] /\
    saved_mode (saved_as PIL o img q) = m /\
    saved_quality (saved_as PIL o img q) = 95.
Proof.
  intros R D S m.
  rewrite (add_watermark_as_str PIL p q o w img R D), S.
  eexists. split; [reflexivity|]. repeat split.
Qed.

(** C8 at its failing input: the script hands [add_watermark] the output
    file name as a [pathlib.Path], in [main] and in [process_directory]
    alike; a [Path] has no [lower], so the call raises before [save] is
    reached, whatever the picture and the name: nothing is saved, flattened
    or not. *)
Theorem path_output_never_saved
    (PIL : pillow) (p q : path) (o : options) (w : world) :
  exists e t w',
    add_watermark PIL p (AsPath q) o w = (Raise e, w') /\
    written w' = written w /\
    trace w' = trace w ++ t /\
    (forall q' m, ~ In (Save q' m) t) /\
    (forall img, read (files w) p = Some (Picture img) ->
                 draw_accepts PIL (fill_of o) = true ->
                 e = AttributeError).
Proof.
  destruct (read (files w) p) as [[|img]|] eqn:R.
  - rewrite add_watermark_unreadable by congruence.
    eexists _, _, _. split; [reflexivity|]. split; [reflexivity|].
    split; [reflexivity|]. split.
    + intros q' m [J|[J|[]]]; discriminate.
    + intros img E. discriminate.
  - destruct (draw_accepts PIL (fill_of o)) eqn:D.
    + rewrite (add_watermark_as_path PIL p q o w img R D).
      eexists _, _, _. split; [reflexivity|]. split; [reflexivity|].
      split; [reflexivity|]. split.
      * intros q' m J. apply in_app_or in J. destruct J as [J|J].
        -- exact (lookup_events_no_save _ _ _ _ J).
        -- destruct J as [J|[J|[]]]; discriminate.
      * reflexivity.
    + rewrite (add_watermark_fill_refused PIL p (AsPath q) o w img R D).
      eexists _, _, _. split; [reflexivity|]. split; [reflexivity|].
      split; [reflexivity|]. split.
      * intros q' m J. apply in_app_or in J. destruct J as [J|J].
        -- exact (lookup_events_no_save _ _ _ _ J).
        -- destruct J as [J|[]]; discriminate.
      * intros img' _ E. discriminate.
  - rewrite add_watermark_unreadable by congruence.
    eexists _, _, _. split; [reflexivity|]. split; [reflexivity|].
    split; [reflexivity|]. split.
    + intros q' m [J|[J|[]]]; discriminate.
    + intros img E. discriminate.
Qed.

(** * The batch driver *)

Module BatchFacts.


Lemma glob_run (d : path) (ext : str) (w : world) :
  glob d ext w = (Ok (hits w d ext), logged w [Glob d (lit "*" ++ ext)]).
Proof. reflexivity. Qed.

Lemma collect_run (d : path) (exts : list str) (acc : list path) (w : world) :
  collect d exts acc w =
    (Ok (acc ++ flat_map (fun ext => hits w d ext ++ hits w d (upper ext)) exts),
     logged w (globs d exts)).
Proof.
  revert acc w. induction exts as [|ext more IH]; intros acc w.
  - cbn [collect flat_map globs]. unfold ret, logged.
    rewrite !app_nil_r. destruct w; reflexivity.
  - cbn [collect]. unfold bind at 1. rewrite glob_run.
    unfold bind at 1. rewrite glob_run. rewrite IH.
    rewrite !logged_logged. cbn [flat_map globs app].
    rewrite <- !app_assoc. reflexivity.
Qed.

(** *** One ending at most fits a name *)

Lemma existsb_filter {A} (f : A -> bool) (l : list A) :
  existsb f l = negb (Nat.eqb (List.length (filter f l)) 0).
Proof.
  induction l as [|x l IH]; simpl; [reflexivity|].
  destruct (f x); simpl; [reflexivity | exact IH].
Qed.

Section Exclusive.
Context {A B : Type}.
Variable test : B -> A -> bool.

Lemma flat_filter_cons (ps : list B) (x : A) (l : list A) :
  Permutation
    (flat_map (fun p => filter (test p) (x :: l)) ps)
    (map (fun _ => x) (filter (fun p => test p x) ps)
     ++ flat_map (fun p => filter (test p) l) ps).
Proof.
  induction ps as [|p ps IH]; [apply perm_nil|].
  cbn [flat_map]. rewrite IH. cbn [filter].
  destruct (test p x); cbn [map app].
  - apply perm_skip. rewrite !app_assoc.
    apply Permutation_app_tail. apply Permutation_app_comm.
  - rewrite !app_assoc.
    apply Permutation_app_tail. apply Permutation_app_comm.
Qed.

Lemma flat_filter_exclusive (ps : list B) (l : list A) :
  (forall x, In x l ->
     (List.length (filter (fun p => test p x) ps) <= 1)%nat) ->
  Permutation
    (flat_map (fun p => filter (test p) l) ps)
    (filter (fun x => existsb (fun p => test p x) ps) l).
Proof.
  induction l as [|x l IH]; intros E.
  - cbn [filter]. clear E.
    induction ps as [|p ps IHp]; cbn [flat_map filter app];
      [apply perm_nil | exact IHp].
  - rewrite flat_filter_cons. cbn [filter].
    rewrite existsb_filter.
    specialize (E x (or_introl eq_refl)) as Ex.
    assert (IH' := IH (fun y I => E y (or_intror I))).
    destruct (filter (fun p => test p x) ps) as [|p [|p' r]];
      cbn [List.length map app Nat.eqb negb] in *.
    + exact IH'.
    + apply perm_skip. exact IH'.
    + lia.
Qed.
End Exclusive.

(** Two prefixes of one string: the shorter is a prefix of the longer. *)
Lemma startswith_both (l p1 p2 : str) :
  startswith l p1 = true -> startswith l p2 = true ->
  (List.length p1 <= List.length p2)%nat ->
  startswith p2 p1 = true.
Proof.
  revert l p2. induction p1 as [|x p1 IH]; intros l p2 H1 H2 L;
    [reflexivity|].
  destruct p2 as [|y p2]; [simpl in L; lia|].
  destruct l as [|c l]; [discriminate|].
  cbn [startswith] in *.
  apply andb_true_iff in H1. destruct H1 as [E1 H1].
  apply andb_true_iff in H2. destruct H2 as [E2 H2].
  apply Ascii.eqb_eq in E1. apply Ascii.eqb_eq in E2. subst x y.
  rewrite Ascii.eqb_refl. cbn [andb].
  apply (IH l p2 H1 H2). simpl in L. lia.
Qed.

Lemma endswith_both (n e1 e2 : str) :
  endswith n e1 = true -> endswith n e2 = true ->
  endswith e1 e2 = true \/ endswith e2 e1 = true.
Proof.
  unfold endswith. intros H1 H2.
  destruct (Nat.le_ge_cases (List.length (rev e1)) (List.length (rev e2))).
  - right. exact (startswith_both _ _ _ H1 H2 H).
  - left. exact (startswith_both _ _ _ H2 H1 H).
Qed.

(** No ending is the end of another. *)
Lemma patterns_apart (e1 e2 : str) :
  In e1 patterns -> In e2 patterns -> endswith e2 e1 = true -> e1 = e2.
Proof.
  intros I1 I2 H.
  assert (C : forallb (fun a => forallb (fun b =>
                implb (endswith b a) (str_eqb a b)) patterns) patterns = true)
    by (vm_compute; reflexivity).
  rewrite forallb_forall in C. specialize (C e1 I1).
  rewrite forallb_forall in C. specialize (C e2 I2).
  rewrite H in C. apply str_eqb_eq. exact C.
Qed.

Lemma patterns_NoDup : NoDup patterns.
Proof.
  assert (D : forallb (fun i => forallb (fun j =>
      implb (negb (Nat.eqb i j))
        (negb (str_eqb (nth i patterns []) (nth j patterns []))))
      (seq 0 12)) (seq 0 12) = true) by (vm_compute; reflexivity).
  apply (NoDup_nth patterns []). intros i j Hi Hj E.
  change (List.length patterns) with 12%nat in Hi, Hj.
  rewrite forallb_forall in D.
  specialize (D i ltac:(apply in_seq; lia)).
  rewrite forallb_forall in D.
  specialize (D j ltac:(apply in_seq; lia)).
  rewrite E, str_eqb_refl in D.
  destruct (Nat.eqb_spec i j); [assumption | discriminate].
Qed.

Lemma one_pattern (n : str) :
  (List.length (filter (endswith n) patterns) <= 1)%nat.
Proof.
  pose proof (NoDup_filter (endswith n) patterns_NoDup) as N.
  assert (U : forall x y,
    In x (filter (endswith n) patterns) ->
    In y (filter (endswith n) patterns) -> x = y).
  { intros x y Ix Iy. apply filter_In in Ix, Iy.
    destruct Ix as [Ix Ex], Iy as [Iy Ey].
    destruct (endswith_both n x y Ex Ey) as [K|K].
    - symmetry. exact (patterns_apart y x Iy Ix K).
    - exact (patterns_apart x y Ix Iy K). }
  destruct (filter (endswith n) patterns) as [|a [|c r]]; simpl; try lia.
  exfalso. inversion N as [|? ? Na _]. apply Na. left.
  apply U; simpl; auto.
Qed.

(** *** What the twelve globs collect *)

Lemma hits_flat (w : world) (d : path) (exts : list str) :
  flat_map (fun ext => hits w d ext ++ hits w d (upper ext)) exts =
  map (joinpath d)
    (flat_map (fun e => filter (fun n => endswith n e) (entries w d))
       (flat_map (fun ext => [ext; upper ext]) exts)).
Proof.
  induction exts as [|ext more IH]; cbn [flat_map app]; [reflexivity|].
  rewrite IH. unfold hits. rewrite !map_app. rewrite <- app_assoc.
  reflexivity.
Qed.

(** Whatever the order of the set, the files collected are the supported
    entries of the directory, each as often as the directory lists it. *)
Lemma collected_supported (order : list str) (w : world) (d : path) :
  Permutation order supported_formats ->
  Permutation
    (flat_map (fun ext => hits w d ext ++ hits w d (upper ext)) order)
    (map (joinpath d) (filter batch_supported (entries w d))).
Proof.
  intros P. rewrite hits_flat. apply Permutation_map.
  transitivity
    (flat_map (fun e => filter (fun n => endswith n e) (entries w d)) patterns).
  - apply Permutation_flat_map. unfold patterns.
    apply Permutation_flat_map. exact P.
  - apply (flat_filter_exclusive (fun e n => endswith n e)).
    intros n _. apply one_pattern.
Qed.

(** *** One file *)


Lemma lookup_events_shape (p : path) (img : image) :
  (forall q, In (Open q) (lookup_events p img) <-> q = p) /\
  filter is_failed_msg (lookup_events p img) = [] /\
  filter is_saved_msg (lookup_events p img) = [].
Proof.
  unfold lookup_events, exif_noise.
  destruct (getexif img) as [| |d]; cbn [found_date];
    [| |destruct (search_date d) as [[x|]|e]];
    cbn [app In filter is_failed_msg is_saved_msg];
    (split; [|split; reflexivity]);
    intros q; split;
    try (intros [E|[E|E]]; [inversion E; reflexivity ..|]);
    try (intros ->; left; reflexivity);
    try contradiction;
    try (destruct E as [E|E]; [discriminate|]);
    try (destruct E as [E|E]; [discriminate|]);
    try contradiction.
Qed.

Ltac one_file_tail L :=
  destruct L as (LO & LF & LS);
  unfold one_file; rewrite !filter_app, LF, LS;
  cbn [filter is_failed_msg is_saved_msg app List.length successes];
  split; [|split; reflexivity];
  intros x; rewrite in_app_iff, LO;
  cbn [In]; split;
  [ intros [E|E]; [exact E|];
    repeat (destruct E as [E|E]; [discriminate|]); contradiction
  | intros E; left; exact E ].

Lemma add_watermark_shape (PIL : pillow) p a o w :
  exists r t w',
    add_watermark PIL p a o w = (r, w') /\
    trace w' = trace w ++ t /\
    one_file p r t.
Proof.
  destruct (read (files w) p) as [[|img]|] eqn:R.
  - rewrite add_watermark_unreadable by congruence.
    eexists _, _, _. split; [reflexivity|]. split; [reflexivity|].
    unfold one_file, failed. cbn. split; [|split; reflexivity].
    intros q. split.
    + intros [E|[E|[]]]; [inversion E; reflexivity | discriminate].
    + intros ->. left. reflexivity.
  - pose proof (lookup_events_shape p img) as L.
    destruct (draw_accepts PIL (fill_of o)) eqn:D.
    + destruct a as [q|q].
      * rewrite (add_watermark_as_str PIL p q o w img R D).
        destruct (can_save PIL w q _).
        -- eexists _, _, _. split; [reflexivity|].
           split; [reflexivity|]. unfold drawing. one_file_tail L.
        -- eexists _, _, _. split; [reflexivity|].
           split; [reflexivity|]. unfold drawing, failed. one_file_tail L.
      * rewrite (add_watermark_as_path PIL p q o w img R D).
        eexists _, _, _. split; [reflexivity|].
        split; [reflexivity|]. unfold drawing, failed. one_file_tail L.
    + rewrite (add_watermark_fill_refused PIL p a o w img R D).
      eexists _, _, _. split; [reflexivity|].
      split; [reflexivity|]. unfold failed. one_file_tail L.
  - rewrite add_watermark_unreadable by congruence.
    eexists _, _, _. split; [reflexivity|]. split; [reflexivity|].
    unfold one_file, failed. cbn. split; [|split; reflexivity].
    intros q. split.
    + intros [E|[E|[]]]; [inversion E; reflexivity | discriminate].
    + intros ->. left. reflexivity.
Qed.

(** *** The loop over the files *)


Lemma process_files_run (PIL : pillow) (out : path) (o : options)
    (l : list path) (n : nat) (w : world) :
  exists t w',
    process_files PIL out o l n w =
      (Ok (n + List.length (filter is_saved_msg t))%nat, w') /\
    trace w' = trace w ++ t /\
    batch_events l t.
Proof.
  revert n w. induction l as [|p l IH]; intros n w.
  - exists [], w. cbn [process_files]. unfold ret.
    rewrite Nat.add_0_r, app_nil_r. repeat split; intros []; auto.
  - cbn [process_files]. unfold bind at 1. unfold try_except.
    unfold bind at 1.
    destruct (add_watermark_shape PIL p (AsPath (joinpath out (name p))) o w)
      as (r & t1 & w1 & E1 & T1 & (O1 & F1 & S1)).
    rewrite E1. destruct r as [[]|e].
    + unfold ret at 1.
      destruct (IH (S n) w1) as (t2 & w2 & E2 & T2 & (O2 & C2)).
      rewrite E2. exists (t1 ++ t2), w2. split; [|split; [|split]].
      * f_equal. f_equal. rewrite filter_app, length_app, S1.
        cbn [successes]. lia.
      * rewrite T2, T1, app_assoc. reflexivity.
      * intros q. rewrite in_app_iff, O1, O2. cbn [In].
        split; [intros [->|I]; auto | intros [->|I]; auto].
      * rewrite !filter_app, !length_app, S1, F1.
        cbn [successes List.length]. lia.
    + unfold bind at 1. unfold print, emit. unfold ret at 1.
      match goal with
      | |- context [process_files PIL out o l n ?w0] =>
          destruct (IH n w0) as (t2 & w2 & E2 & T2 & (O2 & C2))
      end.
      rewrite E2.
      exists (t1 ++ Print (MsgFileFailed (name p)) :: t2), w2.
      split; [|split; [|split]].
      * f_equal. f_equal. rewrite filter_app, length_app, S1.
        cbn [successes filter is_saved_msg]. lia.
      * rewrite T2. cbn [trace]. rewrite T1, <- !app_assoc. reflexivity.
      * intros q. rewrite in_app_iff, O1. cbn [In]. rewrite O2.
        split.
        -- intros [->|[E|I]]; [auto | discriminate | auto].
        -- intros [->|I]; auto.
      * rewrite !filter_app, !length_app, S1, F1.
        cbn [successes filter is_saved_msg is_failed_msg List.length]. lia.
Qed.

(** Called as the script calls it, with a [Path] for the output name,
    [add_watermark] always raises, so the loop counts no success and the
    batch writes nothing. *)
Lemma add_watermark_path_raises (PIL : pillow) p q o w :
  exists e t, add_watermark PIL p (AsPath q) o w = (Raise e, logged w t).
Proof.
  destruct (read (files w) p) as [[|img]|] eqn:R.
  - eexists _, _. apply add_watermark_unreadable. congruence.
  - destruct (draw_accepts PIL (fill_of o)) eqn:D.
    + eexists _, _. exact (add_watermark_as_path PIL p q o w img R D).
    + eexists _, _. exact (add_watermark_fill_refused PIL p _ o w img R D).
  - eexists _, _. apply add_watermark_unreadable. congruence.
Qed.

Lemma process_files_all_fail (PIL : pillow) (out : path) (o : options)
    (l : list path) (n : nat) (w : world) :
  exists t, process_files PIL out o l n w = (Ok n, logged w t).
Proof.
  revert w. induction l as [|p l IH]; intros w.
  - exists []. cbn [process_files]. unfold ret, logged.
    rewrite app_nil_r. destruct w; reflexivity.
  - cbn [process_files].
    destruct (add_watermark_path_raises PIL p (joinpath out (name p)) o w)
      as (e & t1 & E1).
    unfold bind at 1. unfold try_except. unfold bind at 1. rewrite E1.
    rewrite bind_print. unfold ret at 1. rewrite logged_logged.
    destruct (IH (logged w (t1 ++ [Print (MsgFileFailed (name p))])))
      as (t2 & E2).
    rewrite E2, logged_logged. eexists. reflexivity.
Qed.

(** *** The output directory *)


Lemma mkdir_run (p : path) (w : world) :
  is_file w p = false -> mkdir_exist_ok p w = (Ok tt, made w p).
Proof.
  intros F. unfold mkdir_exist_ok, bind, emit, get, made.
  cbn [fst snd dirs files written trace]. unfold is_dir, is_file in *.
  cbn [dirs files]. rewrite F.
  destruct (existsb (path_eqb p) (dirs w)); reflexivity.
Qed.

Lemma made_is_dir (w : world) (p : path) : is_dir (made w p) p = true.
Proof.
  unfold made, is_dir. cbn [dirs].
  destruct (existsb (path_eqb p) (dirs w)) eqn:E; [exact E|].
  rewrite existsb_app. cbn. rewrite path_eqb_refl. apply orb_true_r.
Qed.

Lemma sibling_not_child (d : path) (n : str) :
  is_child d (sibling d n) = false.
Proof.
  unfold is_child. destruct (path_eqb _ _) eqn:E; [|reflexivity].
  apply path_eqb_eq in E. unfold joinpath, sibling in E. cbn in E.
  inversion E as [L]. apply (f_equal (@List.length str)) in L.
  rewrite length_app in L. simpl in L. lia.
Qed.

Lemma made_entries (w : world) (d : path) :
  is_dir w d = true ->
  entries (made w (output_dir_of d)) d = entries w d.
Proof.
  intros D. unfold entries. rewrite D.
  assert (D' : is_dir (made w (output_dir_of d)) d = true).
  { unfold made, is_dir in *. cbn [dirs].
    destruct (existsb (path_eqb (output_dir_of d)) (dirs w)); [exact D|].
    rewrite existsb_app, D. reflexivity. }
  rewrite D'. unfold listdir, made. cbn [dirs files].
  destruct (is_dir w (output_dir_of d)); [reflexivity|].
  rewrite filter_app. cbn [filter].
  unfold output_dir_of. rewrite sibling_not_child, app_nil_r. reflexivity.
Qed.

End BatchFacts.

Import BatchFacts.

Section Directory.

Variable PIL : pillow.
Variable order : list str.
Hypothesis any_order : Permutation order supported_formats.

Variable d : path.
Variable o : options.
Variable w : world.

(** [main] found [d] to be a directory, and no file is in the way of the
    output directory. *)
Hypothesis d_is_dir : is_dir w d = true.
Hypothesis out_free : is_file w (output_dir_of d) = false.

(** The run up to the test of [image_files]. *)
Lemma process_directory_start :
  exists image_files,
    Permutation image_files (supported_entries w d) /\
    process_directory PIL order d o w =
      match image_files with
      | [] => print MsgNoImages
      | _ :: _ =>
          Run.bind (print (MsgFound (List.length image_files))) (fun _ =>
          Run.bind (process_files PIL (output_dir_of d) o image_files 0%nat)
            (fun success_count =>
          Run.bind
            (print (MsgDone success_count (List.length image_files)))
            (fun _ => print (MsgOutputDir (output_dir_of d)))))
      end
      (logged (made w (output_dir_of d))
         (Print (MsgOutputDir (output_dir_of d)) :: globs d order)).
Proof.
  exists (flat_map (fun ext =>
            hits (made w (output_dir_of d)) d ext
            ++ hits (made w (output_dir_of d)) d (upper ext)) order).
  split.
  - rewrite (collected_supported order _ d any_order).
    rewrite (made_entries w d d_is_dir).
    unfold supported_entries, entries. rewrite d_is_dir. reflexivity.
  - unfold process_directory. cbv zeta.
    unfold bind at 1. unfold get at 1.
    unfold exists_. rewrite d_is_dir. cbn [orb negb].
    change (sibling d (name d ++ lit "_watermark")) with (output_dir_of d).
    rewrite (bind_ok _ _ _ _ _ (mkdir_run (output_dir_of d) w out_free)).
    rewrite bind_print.
    rewrite (bind_ok _ _ _ _ _ (collect_run d order [] _)).
    rewrite logged_logged. reflexivity.
Qed.

(** C9: in directory mode the output directory is made first; the globs
    come after it.  A run that finds no supported file prints that and
    stops, and by then the directory exists: it was added to the disk if it
    was not there. *)
Theorem output_dir_made_before_listing :
  filter batch_supported (listdir w d) = [] ->
  process_directory PIL order d o w =
    (Ok tt,
     logged (made w (output_dir_of d))
       (Print (MsgOutputDir (output_dir_of d)) :: globs d order
        ++ [Print MsgNoImages])) /\
  trace (snd (process_directory PIL order d o w)) =
    trace w ++ Mkdir (output_dir_of d)
            :: Print (MsgOutputDir (output_dir_of d)) :: globs d order
            ++ [Print MsgNoImages] /\
  Forall (fun e => exists pattern, e = Glob d pattern) (globs d order) /\
  is_dir (snd (process_directory PIL order d o w)) (output_dir_of d) = true /\
  (is_dir w (output_dir_of d) = false ->
   dirs (snd (process_directory PIL order d o w)) =
     dirs w ++ [output_dir_of d]) /\
  written (snd (process_directory PIL order d o w)) = written w.
Proof.
  intros Z.
  destruct process_directory_start as (image_files & P & E).
  unfold supported_entries in P. rewrite Z in P. cbn [map] in P.
  apply Permutation_sym, Permutation_nil in P. subst image_files.
  assert (E' : process_directory PIL order d o w =
    (Ok tt,
     logged (made w (output_dir_of d))
       (Print (MsgOutputDir (output_dir_of d)) :: globs d order
        ++ [Print MsgNoImages]))).
  { rewrite E. unfold print, emit, logged.
    cbn [dirs files written trace]. rewrite <- !app_assoc. reflexivity. }
  rewrite E'. cbn [snd]. split; [reflexivity|].
  split; [|split; [|split; [|split]]].
  - unfold logged, made. cbn [trace]. rewrite <- app_assoc. reflexivity.
  - unfold globs. clear. induction order as [|ext more IH];
      cbn [flat_map app]; repeat constructor; eauto.
  - apply made_is_dir.
  - intros F. unfold logged, made. cbn [dirs]. rewrite F. reflexivity.
  - reflexivity.
Qed.

(** C2, as the code has it: when the directory holds at least one supported entry,
    the run announces [N] files, goes through exactly those (it opens each of
    them and nothing else), ends every one of them either in "saved" or in
    a logged failure that does not stop the loop, and closes with the
    tally [s/N], where [s <= N] counts the files saved.  (With no supported
    entry there is no tally.) *)
Theorem batch_tally :
  (1 <= List.length (supported_entries w d))%nat ->
  exists s t w',
    process_directory PIL order d o w = (Ok tt, w') /\
    trace w' =
      trace w ++ Mkdir (output_dir_of d)
      :: Print (MsgOutputDir (output_dir_of d)) :: globs d order
      ++ Print (MsgFound (List.length (supported_entries w d))) :: t
      ++ [Print (MsgDone s (List.length (supported_entries w d)));
          Print (MsgOutputDir (output_dir_of d))] /\
    (s <= List.length (supported_entries w d))%nat /\
    List.length (filter is_saved_msg t) = s /\
    List.length (filter is_failed_msg t) =
      (List.length (supported_entries w d) - s)%nat /\
    (forall q, In (Open q) t <-> In q (supported_entries w d)).
Proof.
  intros L.
  destruct process_directory_start as (image_files & P & E).
  assert (Len : List.length image_files
                = List.length (supported_entries w d))
    by (exact (Permutation_length P)).
  destruct image_files as [|f fs]; [simpl in Len; lia|].
  rewrite E. cbv beta iota. rewrite bind_print.
  match goal with
  | |- exists _ _ _, Run.bind _ _ ?w0 = _ /\ _ =>
      destruct (process_files_run PIL (output_dir_of d) o (f :: fs) 0%nat w0)
        as (t & w2 & E2 & T2 & (O2 & C2))
  end.
  rewrite (bind_ok _ _ _ _ _ E2). rewrite bind_print.
  exists (List.length (filter is_saved_msg t)), t.
  eexists. split; [reflexivity|].
  rewrite Len in *. split; [|split; [|split; [|split]]].
  - unfold print, emit, logged. cbn [trace]. rewrite T2.
    unfold logged, made. cbn [trace Nat.add].
    rewrite <- !app_assoc. reflexivity.
  - lia.
  - reflexivity.
  - lia.
  - intros q. rewrite O2. split; intros I.
    + exact (Permutation_in _ P I).
    + exact (Permutation_in _ (Permutation_sym P) I).
Qed.

End Directory.

(** C2, as the specification has it, fails on a directory with no
    supported file ([N = 0]): the run prints that it found none and stops;
    no tally [0/0] is printed. *)
Lemma empty_directory_prints_no_tally :
  filter batch_supported (listdir Demo.disk (Demo.dir ["home"; "empty"]%string))
    = [] /\
  existsb (fun e => match e with Print (MsgDone _ _) => true | _ => false end)
    (trace (snd (process_directory Demo.PIL supported_formats
                   (Demo.dir ["home"; "empty"]%string) Demo.defaults
                   Demo.disk))) = false /\
  last (trace (snd (process_directory Demo.PIL supported_formats
                      (Demo.dir ["home"; "empty"]%string) Demo.defaults
                      Demo.disk))) (Print MsgSingleFailed)
    = Print MsgNoImages.
Proof. split_all; vm_compute; reflexivity. Qed.

Lemma batch_tally_witness :
  exists s t w',
    process_directory Demo.PIL supported_formats
      (Demo.dir ["home"; "pics"]%string) Demo.defaults Demo.disk
      = (Ok tt, w') /\
    In (Print (MsgDone s 2)) (trace w') /\
    (s <= 2)%nat /\
    List.length (filter is_saved_msg t) = s /\
    List.length (filter is_failed_msg t) = (2 - s)%nat.
Proof.
  destruct (batch_tally Demo.PIL supported_formats
              (Permutation_refl _) (Demo.dir ["home"; "pics"]%string)
              Demo.defaults Demo.disk eq_refl eq_refl)
    as (s & t & w' & E & T & L & S & F & _).
  - vm_compute. lia.
  - exists s, t, w'. split; [exact E|]. split; [|split; [|split]].
    + rewrite T. apply in_or_app. right. right. right.
      apply in_or_app. right. right.
      apply in_or_app. right. left. reflexivity.
    + exact L.
    + exact S.
    + exact F.
Defined.

Lemma output_dir_made_before_listing_witness :
  is_dir Demo.disk
    (output_dir_of (Demo.dir ["home"; "empty"]%string)) = false /\
  is_dir (snd (process_directory Demo.PIL supported_formats
                 (Demo.dir ["home"; "empty"]%string) Demo.defaults
                 Demo.disk))
    (output_dir_of (Demo.dir ["home"; "empty"]%string)) = true.
Proof.
  split; [reflexivity|].
  exact (proj1 (proj2 (proj2 (proj2
    (output_dir_made_before_listing Demo.PIL supported_formats
       (Permutation_refl _) (Demo.dir ["home"; "empty"]%string)
       Demo.defaults Demo.disk eq_refl eq_refl eq_refl))))).
Defined.

(** * C10: letter case of the extension, file mode against directory mode *)

Module SuffixFacts.








End SuffixFacts.

Section MixedCase.

Variable n : str.

(** The suffix is a supported format once in lower case, but it is neither
    the lower-case nor the upper-case spelling. *)
Hypothesis supported_ignoring_case : is_supported (lower (suffix n)) = true.
Hypothesis mixed_case : ~ In (suffix n) patterns.



End MixedCase.


(** * Further properties of the script *)

(** ** The date lookup *)

Module LookupFacts.






Lemma lookup_In (id : Z) (d : exif_dict) (v : value) :
  lookup id d = Some v -> In (id, v) d.
Proof.
  induction d as [|[k u] d IH]; cbn [lookup]; [discriminate|].
  destruct (Z.eqb_spec k id) as [->|_].
  - intros E. inversion E. left. reflexivity.
  - intros E. right. exact (IH E).
Qed.

Lemma lookup_none (id : Z) (d : exif_dict) :
  ~ In id (map fst d) -> lookup id d = None.
Proof.
  induction d as [|[k u] d IH]; cbn [lookup map fst In]; [reflexivity|].
  intros N. destruct (Z.eqb_spec k id) as [->|_]; [exfalso; auto|].
  apply IH. auto.
Qed.

Lemma In_lookup (id : Z) (d : exif_dict) (v : value) :
  NoDup (map fst d) -> In (id, v) d -> lookup id d = Some v.
Proof.
  induction d as [|[k u] d IH]; cbn [lookup map fst]; [intros _ []|].
  intros N I. inversion N as [|? ? Nk Nd]. subst.
  destruct I as [E|I].
  - inversion E. subst. rewrite Z.eqb_refl. reflexivity.
  - destruct (Z.eqb_spec k id) as [->|_]; [|exact (IH Nd I)].
    exfalso. apply Nk. apply in_map_iff. exists (id, v). auto.
Qed.

Lemma lookup_permutation (id : Z) (d d' : exif_dict) :
  NoDup (map fst d) -> Permutation d d' -> lookup id d = lookup id d'.
Proof.
  intros N P.
  assert (N' : NoDup (map fst d')).
  { apply (Permutation_NoDup (Permutation_map fst P) N). }
  destruct (lookup id d) as [v|] eqn:A.
  - symmetry. apply In_lookup; [exact N'|].
    apply (Permutation_in _ P). exact (lookup_In _ _ _ A).
  - destruct (lookup id d') as [v'|] eqn:B; [|reflexivity].
    apply lookup_In in B. apply (Permutation_in _ (Permutation_sym P)) in B.
    rewrite (In_lookup _ _ _ N B) in A. discriminate.
Qed.

(** With one entry per key, a pass over the dict is a look-up. *)
Lemma scan_for_lookup (n : string) (d : exif_dict) :
  In n date_names -> NoDup (map fst d) ->
  scan_for n d = field_outcome (lookup (id_of n) d).
Proof.
  intros Hn. induction d as [|[k v] d IH]; intros N;
    cbn [scan_for lookup]; [reflexivity|].
  cbn [map fst] in N. inversion N as [|? ? Nk Nd]. subst.
  rewrite (tag_is_id n k Hn).
  destruct (Z.eqb_spec k (id_of n)) as [E|_]; [|exact (IH Nd)].
  cbn [field_outcome].
  destruct (strptime v) as [dt|[]]; try reflexivity.
  rewrite (IH Nd), lookup_none; [reflexivity|]. rewrite <- E. exact Nk.
Qed.

End LookupFacts.

Import LookupFacts.

(** X1: [get_shooting_date] never raises and leaves the disk alone, whatever
    the path: it opens the file once and returns; if anything went wrong
    (no such file, not a picture, [_getexif] raising, a date field that is
    no text) it prints one error line and the result is [None]. *)
Theorem get_shooting_date_never_raises (p : path) (w : world) :
  exists r t,
    get_shooting_date p w = (Ok r, logged w (Open p :: t)) /\
    (t = [] \/ (t = [Print MsgExifError] /\ r = None)).
Proof.
  destruct (read (files w) p) as [[|img]|] eqn:R.
  - exists None, [Print MsgExifError]. split; [|right; auto].
    apply get_shooting_date_unreadable. congruence.
  - exists (found_date (getexif img)), (exif_noise (getexif img)).
    split; [exact (get_shooting_date_picture p w img R)|].
    unfold found_date, exif_noise.
    destruct (getexif img) as [| |d]; [right; auto | left; auto|].
    destruct (search_date d); [left; auto | right; auto].
  - exists None, [Print MsgExifError]. split; [|right; auto].
    apply get_shooting_date_unreadable. congruence.
Qed.



(** X3: when every date field of the dict holds text, [get_shooting_date]
    returns what the priority search returns (the first of [DateTime],
    [DateTimeOriginal], [DateTimeDigitized] whose text parses, texts that do
    not parse being passed over) and prints nothing. *)
Theorem text_dates_follow_priority
    (p : path) (w : world) (img : image) (d : exif_dict) :
  read (files w) p = Some (Picture img) ->
  getexif img = ExifDict d ->
  text_dates d ->
  get_shooting_date p w = (Ok (spec_date d), logged w [Open p]).
Proof.
  intros R G T. rewrite (get_shooting_date_picture p w img R), G.
  unfold found_date, exif_noise. rewrite (search_date_text d T). reflexivity.
Qed.

Lemma text_dates_follow_priority_witness :
  get_shooting_date (Demo.dir ["home"; "pics"; "a.jpg"]%string) Demo.disk =
    (Ok (Some (lit "2023-10-15")),
     logged Demo.disk [Open (Demo.dir ["home"; "pics"; "a.jpg"]%string)]).
Proof.
  refine (text_dates_follow_priority
            (Demo.dir ["home"; "pics"; "a.jpg"]%string) Demo.disk
            {| width := 800; height := 600; getexif := Demo.dated |}
            _ eq_refl eq_refl _).
  intros k v [E|[E|[]]] _; inversion E; eexists; reflexivity.
Defined.

Lemma scan_for_skip (n : string) (pre l : exif_dict) :
  In n date_names ->
  (forall v, ~ In (id_of n, v) pre) ->
  scan_for n (pre ++ l) = scan_for n l.
Proof.
  intros Hn. induction pre as [|[k v] pre IH]; intros N; [reflexivity|].
  cbn [app scan_for]. rewrite (tag_is_id n k Hn).
  destruct (Z.eqb_spec k (id_of n)) as [E|_].
  - exfalso. apply (N v). left. rewrite E. reflexivity.
  - apply IH. intros u I. apply (N u). right. exact I.
Qed.

(** X4: a valid time stamp "YYYY:MM:DD HH:MM:SS" under [DateTime] decides
    the result, whatever the other entries hold (text or not): the date
    comes back digit for digit, with [-] for [:].  (The year is taken from
    1000 on: how [strftime] pads an earlier year is the platform's
    choice.) *)
Theorem valid_datetime_is_returned
    (pre rest : exif_dict) (y m d h mi s : Z) :
  DateTime.valid_date y m d = true ->
  DateTime.valid_time h mi s = true ->
  1000 <= y ->
  (forall v, ~ In (306, v) pre) ->
  search_date (pre ++ (306, VStr (stamp y m d h mi s)) :: rest) =
    Ok (Some (date_portion (stamp y m d h mi s))).
Proof.
  intros Vd Vt _ N. unfold search_date.
  rewrite (scan_for_skip "DateTime" pre _ ltac:(simpl; auto) N).
  cbn [scan_for].
  rewrite (tag_is_id "DateTime" 306 ltac:(simpl; auto)).
  change (306 =? id_of "DateTime") with true. cbv iota.
  unfold strptime. rewrite (strptime_stamp _ _ _ _ _ _ Vd Vt).
  rewrite strftime_stamp. reflexivity.
Qed.

Lemma valid_datetime_is_returned_witness :
  search_date [ (271, VStr (lit "Canon")); (36867, VInt 5);
                (306, VStr (lit "2024:02:29 23:59:59"));
                (36868, VBytes (lit "x")) ] =
    Ok (Some (lit "2024-02-29")).
Proof.
  refine (valid_datetime_is_returned
            [ (271, VStr (lit "Canon")); (36867, VInt 5) ]
            [ (36868, VBytes (lit "x")) ]
            2024 2 29 23 59 59 eq_refl eq_refl ltac:(lia) _).
  intros v [E|[E|[]]]; inversion E.
Defined.

(** X5: the order in which the dict yields its entries does not matter:
    two dicts with the same entries, one per tag id, give the same result
    (the same date, the same absence, the same exception). *)
Theorem search_date_ignores_dict_order (d d' : exif_dict) :
  NoDup (map fst d) -> Permutation d d' ->
  search_date d = search_date d'.
Proof.
  intros N P.
  assert (N' : NoDup (map fst d'))
    by (apply (Permutation_NoDup (Permutation_map fst P) N)).
  unfold search_date, date_tags. cbn [scan_each].
  rewrite !(scan_for_lookup _ d) by (simpl; auto).
  rewrite !(scan_for_lookup _ d') by (simpl; auto).
  rewrite !(lookup_permutation _ d d' N P). reflexivity.
Qed.

Lemma search_date_ignores_dict_order_witness :
  search_date [ (36867, VStr (lit "2023:10:15 14:30:25"));
                (306, VStr (lit "bad")); (271, VStr (lit "Canon")) ] =
  search_date [ (271, VStr (lit "Canon")); (306, VStr (lit "bad"));
                (36867, VStr (lit "2023:10:15 14:30:25")) ].
Proof.
  apply search_date_ignores_dict_order.
  - repeat (apply NoDup_cons; [cbn; intuition discriminate|]).
    apply NoDup_nil.
  - apply Permutation_rev.
Defined.

(** ** [add_watermark] *)

(** X6: [add_watermark] is all or nothing.  When it returns, exactly one
    save went through, at the output path, of the date found (or the
    placeholder) at the computed position, with the colour and alpha as
    fill and quality 95, and its last line is "saved".  When it raises, no
    save went through and its last line is the processing error for the
    input file. *)
Theorem add_watermark_all_or_nothing
    (PIL : pillow) (p : path) (a : path_arg) (o : options) (w : world) :
  match add_watermark PIL p a o w with
  | (Ok _, w') =>
      exists img t,
        read (files w) p = Some (Picture img) /\
        written w' =
          written w ++
          [(path_of a,
            {| saved_mode := save_mode (lower (name (path_of a)));
               saved_quality := 95;
               saved_text := date_text img;
               saved_xy := text_xy PIL o img;
               saved_fill := color o ++ [alpha_of (opacity o)] |})] /\
        trace w' = trace w ++ t ++ [Print (MsgSaved (name (path_of a)))]
  | (Raise _, w') =>
      written w' = written w /\
      exists t, trace w' = trace w ++ t ++ [Print (MsgProcessError (name p))]
  end.
Proof.
  destruct (read (files w) p) as [[|img]|] eqn:R.
  - rewrite add_watermark_unreadable by congruence.
    split; [reflexivity|]. exists [Open p]. reflexivity.
  - destruct (draw_accepts PIL (fill_of o)) eqn:D.
    + destruct a as [q|q].
      * rewrite (add_watermark_as_str PIL p q o w img R D).
        destruct (can_save PIL w q _).
        -- exists img.
           exists (lookup_events p img ++
                   [drawing PIL o img; Save q (save_mode (lower (name q)))]).
           split; [reflexivity|]. split; [reflexivity|].
           cbn [trace path_of]. rewrite <- app_assoc. reflexivity.
        -- split; [reflexivity|].
           exists (lookup_events p img ++
                   [drawing PIL o img; Save q (save_mode (lower (name q)))]).
           cbn [trace logged]. rewrite <- app_assoc. reflexivity.
      * rewrite (add_watermark_as_path PIL p q o w img R D).
        split; [reflexivity|].
        exists (lookup_events p img ++ [drawing PIL o img]).
        cbn [trace logged]. rewrite <- app_assoc. reflexivity.
    + rewrite (add_watermark_fill_refused PIL p a o w img R D).
      split; [reflexivity|]. exists (lookup_events p img). reflexivity.
  - rewrite add_watermark_unreadable by congruence.
    split; [reflexivity|]. exists [Open p]. reflexivity.
Qed.

(** ** [parse_color] *)

Module MoreColorFacts.

Lemma split_length (c : ascii) (s : str) :
  contains s c = true -> (2 <= List.length (split c s))%nat.
Proof.
  induction s as [|x s IH]; cbn [contains existsb split]; [discriminate|].
  rewrite Ascii.eqb_sym.
  destruct (Ascii.eqb x c).
  - intros _. cbn [List.length].
    destruct (split c s) eqn:E; [destruct s; cbn in E; try discriminate;
      destruct (Ascii.eqb a c); [discriminate | destruct (split c s); discriminate]|].
    simpl. lia.
  - cbn [orb]. intros H. specialize (IH H).
    destruct (split c s) as [|q qs]; [simpl in IH; lia|]. exact IH.
Qed.

Lemma int_tuple_length (f : str -> option Z) (l : list str) (t : list Z) :
  int_tuple f l = Some t -> List.length t = List.length l.
Proof.
  revert t. induction l as [|x l IH]; intros t; cbn [int_tuple].
  - intros E. inversion E. reflexivity.
  - destruct (f x); [|discriminate].
    destruct (int_tuple f l) as [u|]; [|discriminate].
    intros E. inversion E. cbn [List.length]. rewrite (IH u eq_refl).
    reflexivity.
Qed.

Lemma colors_get_length (key : str) :
  List.length (colors_get colors key [255; 255; 255]) = 3%nat.
Proof.
  unfold colors. cbn [colors_get].
  repeat match goal with
  | |- context [if ?b then _ else _] => destruct b; [reflexivity|]
  end.
  reflexivity.
Qed.

End MoreColorFacts.

(** X7: [parse_color] gives three numbers, except for an input with a
    comma and no leading [#] whose pieces all convert: then it gives as
    many numbers as there are pieces, two at least.  So the result never
    has fewer than two components. *)
Theorem parse_color_length (s : str) :
  List.length (parse_color s) = 3%nat \/
  (startswith s (lit "#") = false /\ contains s "," = true /\
   List.length (parse_color s) = List.length (split "," s) /\
   (2 <= List.length (split "," s))%nat).
Proof.
  unfold parse_color, parse_color_try.
  destruct (startswith s (lit "#")) eqn:H.
  - left.
    destruct (int_tuple _ _) as [t|] eqn:E; [|reflexivity].
    apply MoreColorFacts.int_tuple_length in E. exact E.
  - destruct (contains s ",") eqn:C.
    + destruct (int_tuple (int 10) (split "," s)) as [t|] eqn:E;
        [|left; reflexivity].
      right. split; [reflexivity|]. split; [reflexivity|]. split.
      * exact (MoreColorFacts.int_tuple_length _ _ _ E).
      * exact (MoreColorFacts.split_length _ _ C).
    + left. apply MoreColorFacts.colors_get_length.
Qed.

(** X8: after the [#], only the first six characters count: whatever
    follows six hex digits is ignored ([#RRGGBBAA] is read as [#RRGGBB]),
    and any number of leading [#] is dropped. *)
Theorem parse_color_hex_reads_six :
  (forall r1 r2 g1 g2 b1 b2 rest,
     forallb is_hex [r1; r2; g1; g2; b1; b2] = true ->
     parse_color ("#"%char :: [r1; r2; g1; g2; b1; b2] ++ rest) =
     parse_color ("#"%char :: [r1; r2; g1; g2; b1; b2])) /\
  (forall s, parse_color ("#"%char :: "#"%char :: s) =
             parse_color ("#"%char :: s)).
Proof.
  split.
  - intros r1 r2 g1 g2 b1 b2 rest H.
    assert (H1 : is_hex r1 = true).
    { cbn [forallb] in H. apply andb_true_iff in H. exact (proj1 H). }
    unfold parse_color, parse_color_try.
    change (startswith ("#"%char :: [r1; r2; g1; g2; b1; b2] ++ rest) (lit "#"))
      with true.
    change (startswith ("#"%char :: [r1; r2; g1; g2; b1; b2]) (lit "#"))
      with true.
    cbv iota.
    change (lstrip "#" ("#"%char :: [r1; r2; g1; g2; b1; b2] ++ rest))
      with (lstrip "#" ([r1; r2; g1; g2; b1; b2] ++ rest)).
    change (lstrip "#" ("#"%char :: [r1; r2; g1; g2; b1; b2]))
      with (lstrip "#" [r1; r2; g1; g2; b1; b2]).
    cbn [app]. unfold lstrip at 1 2. rewrite (hex_not_hash _ H1).
    reflexivity.
  - intros s. unfold parse_color, parse_color_try.
    change (startswith ("#"%char :: "#"%char :: s) (lit "#")) with true.
    change (startswith ("#"%char :: s) (lit "#")) with true.
    reflexivity.
Qed.

(** X9: a [#] input with fewer than five characters after the [#]s has no
    third pair to convert, and gives white. *)
Theorem parse_color_short_hex (s : str) :
  startswith s (lit "#") = true ->
  (List.length (lstrip "#" s) <= 4)%nat ->
  parse_color s = [255; 255; 255].
Proof.
  intros H L. unfold parse_color, parse_color_try. rewrite H.
  cbn [map int_tuple].
  assert (E : slice (lstrip "#" s) 4 (4 + 2) = []).
  { unfold slice. rewrite skipn_all2 by exact L. reflexivity. }
  rewrite E.
  destruct (int 16 (slice (lstrip "#" s) 0 (0 + 2))); [|reflexivity].
  destruct (int 16 (slice (lstrip "#" s) 2 (2 + 2))); reflexivity.
Qed.

Lemma parse_color_short_hex_witness :
  parse_color (lit "#FFF") = [255; 255; 255].
Proof.
  apply parse_color_short_hex; [reflexivity | simpl; lia].
Defined.

(** ** The script as a whole *)

Module ScriptFacts.

Lemma mkdir_free (p : path) (w : world) :
  blocked w p = false -> mkdir_exist_ok p w = (Ok tt, made w p).
Proof.
  unfold blocked, mkdir_exist_ok, bind, emit, get, made.
  cbn [fst snd dirs files written trace]. unfold is_dir, is_file.
  cbn [dirs files].
  destruct (existsb (path_eqb p) (dirs w)); cbn [negb andb];
    [reflexivity|].
  intros ->. reflexivity.
Qed.

Lemma mkdir_blocked (p : path) (w : world) :
  blocked w p = true ->
  mkdir_exist_ok p w = (Raise OSError, logged w [Mkdir p]).
Proof.
  unfold blocked, mkdir_exist_ok, bind, emit, get, logged.
  cbn [fst snd dirs files written trace]. unfold is_dir, is_file.
  cbn [dirs files].
  destruct (existsb (path_eqb p) (dirs w)); cbn [negb andb];
    [discriminate|].
  intros ->. reflexivity.
Qed.

(** With a [Path] for the output name [add_watermark] raises, after it
    opened the file and with the processing error for its last line. *)
Lemma add_watermark_path_fails (PIL : pillow) p q o w :
  exists e t,
    add_watermark PIL p (AsPath q) o w =
      (Raise e, logged w (Open p :: t ++ [failed p])).
Proof.
  destruct (read (files w) p) as [[|img]|] eqn:R.
  - exists OSError, []. apply add_watermark_unreadable. congruence.
  - destruct (draw_accepts PIL (fill_of o)) eqn:D.
    + eexists _, _. rewrite (add_watermark_as_path PIL p q o w img R D).
      unfold lookup_events. cbn [app]. rewrite <- app_assoc.
      cbn [app].
      rewrite (app_assoc _ [drawing PIL o img] [failed p]).
      rewrite app_comm_cons. rewrite app_assoc. reflexivity.
    + eexists _, _.
      rewrite (add_watermark_fill_refused PIL p _ o w img R D).
      unfold lookup_events. cbn [app]. rewrite <- app_assoc.
      rewrite app_comm_cons. rewrite app_assoc. reflexivity.
  - exists OSError, []. apply add_watermark_unreadable. congruence.
Qed.

(** The directory run once [mkdir] went through, for any order of the
    set. *)
Lemma process_directory_free (PIL : pillow) (order : list str)
    (d : path) (o : options) (w : world) :
  is_dir w d = true -> blocked w (output_dir_of d) = false ->
  exists t,
    process_directory PIL order d o w =
      (Ok tt, logged (made w (output_dir_of d)) t).
Proof.
  intros D B. unfold process_directory. cbv zeta.
  unfold bind at 1. unfold get at 1.
  unfold exists_. rewrite D. cbn [orb negb].
  change (sibling d (name d ++ lit "_watermark")) with (output_dir_of d).
  rewrite (bind_ok _ _ _ _ _ (mkdir_free (output_dir_of d) w B)).
  rewrite bind_print.
  rewrite (bind_ok _ _ _ _ _ (collect_run d order [] _)).
  rewrite logged_logged. cbn [app].
  match goal with
  | |- context [match ?l with [] => _ | _ :: _ => _ end] =>
      destruct l as [|f fs] eqn:L
  end.
  - eexists. unfold print, emit, logged.
    cbn [dirs files written trace]. rewrite <- !app_assoc. reflexivity.
  - rewrite bind_print, logged_logged.
    match goal with
    | |- context [Run.bind (process_files PIL ?out o ?l ?n) _ ?w0] =>
        destruct (process_files_all_fail PIL out o l n w0) as (t & E)
    end.
    rewrite (bind_ok _ _ _ _ _ E). rewrite !bind_print.
    rewrite !logged_logged. eexists.
    unfold print, emit, logged.
    cbn [dirs files written trace]. rewrite <- !app_assoc. reflexivity.
Qed.

Lemma process_directory_blocked (PIL : pillow) (order : list str)
    (d : path) (o : options) (w : world) :
  is_dir w d = true -> blocked w (output_dir_of d) = true ->
  process_directory PIL order d o w =
    (Raise OSError, logged w [Mkdir (output_dir_of d)]).
Proof.
  intros D B. unfold process_directory. cbv zeta.
  unfold bind at 1. unfold get at 1.
  unfold exists_. rewrite D. cbn [orb negb].
  change (sibling d (name d ++ lit "_watermark")) with (output_dir_of d).
  unfold bind at 1. rewrite (mkdir_blocked _ _ B). reflexivity.
Qed.

(** The single-file attempt of [main], as the script makes it. *)
Lemma single_attempt_fails (PIL : pillow) p q o (m : msg) (w : world) :
  exists t,
    try_except
      (Run.bind (add_watermark PIL p (AsPath q) o) (fun _ => print m))
      (fun _ => print MsgSingleFailed) w =
    (Ok tt,
     logged w (Open p :: t ++ [failed p; Print MsgSingleFailed])).
Proof.
  destruct (add_watermark_path_fails PIL p q o w) as (e & t & E).
  exists t. unfold try_except, bind. rewrite E.
  unfold print, emit, logged. cbn [dirs files written trace].
  rewrite <- !app_assoc. cbn [app]. rewrite <- !app_assoc. reflexivity.
Qed.

(** Every run of [main]. *)
Lemma main_run (PIL : pillow) (order : list str) (args : arguments)
    (w : world) :
  match output_dir_for args w with
  | Some q =>
      if blocked w q
      then main PIL order args w = (Raise OSError, logged w [Mkdir q])
      else exists t, main PIL order args w = (Ok tt, logged (made w q) t)
  | None =>
      main PIL order args w = (Ok tt, logged w [Print (refusal args w)])
  end.
Proof.
  unfold output_dir_for, refusal. cbv zeta.
  destruct (is_file w (arg_input_path args)) eqn:F.
  - destruct (is_supported _) eqn:S.
    + destruct (blocked w _) eqn:B;
        unfold main; cbv zeta; unfold bind at 1; unfold get at 1;
        rewrite F, S; cbn [negb].
      * unfold bind at 1. rewrite (mkdir_blocked _ _ B). reflexivity.
      * rewrite (bind_ok _ _ _ _ _ (mkdir_free _ _ B)).
        match goal with
        | |- context [try_except
                        (Run.bind (add_watermark PIL ?p (AsPath ?q) ?o)
                           (fun _ => print ?m)) _ ?w0] =>
            destruct (single_attempt_fails PIL p q o m w0) as (t & E)
        end.
        rewrite E. eexists. reflexivity.
    + unfold main. cbv zeta. unfold bind at 1. unfold get at 1.
      rewrite F, S. reflexivity.
  - destruct (is_dir w (arg_input_path args)) eqn:D.
    + destruct (blocked w _) eqn:B;
        unfold main; cbv zeta; unfold bind at 1; unfold get at 1;
        rewrite F; unfold bind at 1; unfold get at 1; rewrite D.
      * apply process_directory_blocked; assumption.
      * apply process_directory_free; assumption.
    + unfold main. cbv zeta. unfold bind at 1. unfold get at 1.
      rewrite F. unfold bind at 1. unfold get at 1. rewrite D.
      reflexivity.
Qed.

End ScriptFacts.

(** X10: [mkdir] is called outside every [try].  When a file sits where
    the output directory should go, its [OSError] (a [FileExistsError])
    leaves [main], which stops right after the attempt with nothing printed
    and the disk as it was.  On the disk as modelled (no permissions) this
    is the one exception that leaves [main]: everything else, from a
    missing path to a picture that cannot be read, ends in a normal
    return. *)
Theorem main_raises_only_when_blocked
    (PIL : pillow) (order : list str) (args : arguments) (w : world) :
  (forall e,
     fst (main PIL order args w) = Raise e <->
     e = OSError /\
     exists q, output_dir_for args w = Some q /\ blocked w q = true) /\
  (forall q,
     output_dir_for args w = Some q -> blocked w q = true ->
     snd (main PIL order args w) = logged w [Mkdir q]).
Proof.
  pose proof (ScriptFacts.main_run PIL order args w) as R.
  destruct (output_dir_for args w) as [q|].
  - destruct (blocked w q) eqn:B.
    + rewrite R. cbn [fst snd]. split.
      * intros e. split.
        -- intros E. inversion E. split; [reflexivity|].
           exists q. split; [reflexivity | exact B].
        -- intros [-> _]. reflexivity.
      * intros q' E _. inversion E. reflexivity.
    + destruct R as (t & R). rewrite R. cbn [fst snd]. split.
      * intros e. split; [discriminate|].
        intros (_ & q' & E & B'). inversion E. subst q'. congruence.
      * intros q' E B'. inversion E. subst q'. congruence.
  - rewrite R. cbn [fst snd]. split.
    + intros e. split; [discriminate|].
      intros (_ & q' & E & _). discriminate.
    + intros q' E. discriminate.
Qed.

(** X11: no run of the script writes a picture.  [main] leaves the files
    of the disk and the pictures written as they were, whatever its input;
    the one thing it may add is the output directory, when that is neither
    a directory nor a file yet. *)
Theorem script_never_writes
    (PIL : pillow) (order : list str) (args : arguments) (w : world) :
  written (snd (main PIL order args w)) = written w /\
  files (snd (main PIL order args w)) = files w /\
  dirs (snd (main PIL order args w)) =
    match output_dir_for args w with
    | Some q => if is_dir w q || is_file w q then dirs w else dirs w ++ [q]
    | None => dirs w
    end.
Proof.
  pose proof (ScriptFacts.main_run PIL order args w) as R.
  destruct (output_dir_for args w) as [q|].
  - unfold blocked in R. destruct (is_dir w q) eqn:D; cbn [negb andb orb] in *.
    + destruct R as (t & R). rewrite R. unfold logged, made. cbn.
      rewrite D. split_all; reflexivity.
    + destruct (is_file w q) eqn:F.
      * rewrite R. split_all; reflexivity.
      * destruct R as (t & R). rewrite R. unfold logged, made. cbn.
        rewrite D. split_all; reflexivity.
  - rewrite R. split_all; reflexivity.
Qed.

(** X12: as [process_directory] calls [add_watermark], with a [Path] for
    the output name, every file of a batch fails: for a directory with
    [N >= 1] supported entries the run logs [N] failures, no "saved", and
    closes with the tally [0/N]. *)
Theorem batch_counts_no_success
    (PIL : pillow) (order : list str) (d : path) (o : options) (w : world) :
  Permutation order supported_formats ->
  is_dir w d = true ->
  is_file w (output_dir_of d) = false ->
  (1 <= List.length (supported_entries w d))%nat ->
  exists t,
    process_directory PIL order d o w =
      (Ok tt,
       logged (made w (output_dir_of d))
         (Print (MsgOutputDir (output_dir_of d)) :: globs d order
          ++ Print (MsgFound (List.length (supported_entries w d))) :: t
          ++ [Print (MsgDone 0 (List.length (supported_entries w d)));
              Print (MsgOutputDir (output_dir_of d))])) /\
    List.length (filter is_failed_msg t) =
      List.length (supported_entries w d) /\
    filter is_saved_msg t = [].
Proof.
  intros P D F L.
  destruct (process_directory_start PIL order P d o w D F)
    as (image_files & Pi & E).
  assert (Len : List.length image_files
                = List.length (supported_entries w d))
    by (exact (Permutation_length Pi)).
  destruct image_files as [|f fs]; [simpl in Len; lia|].
  rewrite E. cbv beta iota. rewrite bind_print, logged_logged.
  match goal with
  | |- exists _, Run.bind (process_files PIL ?out o ?l ?n) _ ?w0 = _ /\ _ =>
      destruct (process_files_all_fail PIL out o l n w0) as (t & E0);
      destruct (process_files_run PIL out o l n w0)
        as (t' & w2 & E2 & T2 & (O2 & C2))
  end.
  rewrite E0 in E2. inversion E2 as [[N W]].
  assert (T : t' = t).
  { rewrite <- W in T2. unfold logged in T2. cbn [trace] in T2.
    apply app_inv_head in T2. symmetry. exact T2. }
  subst t'.
  assert (S0 : List.length (filter is_saved_msg t) = 0%nat) by lia.
  exists t. rewrite (bind_ok _ _ _ _ _ E0). rewrite !bind_print.
  rewrite !logged_logged. rewrite Len in *. split; [|split].
  - unfold print, emit, logged. cbn [dirs files written trace app].
    repeat first [rewrite <- app_assoc | progress cbn [app]]. reflexivity.
  - lia.
  - destruct (filter is_saved_msg t); [reflexivity | discriminate S0].
Qed.

Lemma batch_counts_no_success_witness :
  exists t w',
    process_directory Demo.PIL supported_formats
      (Demo.dir ["home"; "pics"]%string) Demo.defaults Demo.disk
      = (Ok tt, w') /\
    List.length (filter is_failed_msg t) = 2%nat /\
    filter is_saved_msg t = [].
Proof.
  destruct (batch_counts_no_success Demo.PIL supported_formats
              (Demo.dir ["home"; "pics"]%string) Demo.defaults Demo.disk
              (Permutation_refl _) eq_refl eq_refl)
    as (t & E & F & S).
  - vm_compute. lia.
  - exists t. eexists. split; [exact E|]. split; [exact F | exact S].
Defined.


(** X14: in single-file mode the script never reaches "done".  For a
    supported file whose output directory can be made, [main] makes the
    directory, opens the file, and ends with the processing error of
    [add_watermark] followed by its own "failed" line; it returns
    normally. *)
Theorem single_file_always_fails
    (PIL : pillow) (order : list str) (args : arguments) (w : world) :
  is_file w (arg_input_path args) = true ->
  is_supported (lower (suffix (name (arg_input_path args)))) = true ->
  blocked w (sibling (arg_input_path args)
               (stem (name (arg_input_path args)) ++ lit "_watermark"))
    = false ->
  exists t,
    main PIL order args w =
      (Ok tt,
       logged
         (made w (sibling (arg_input_path args)
                    (stem (name (arg_input_path args)) ++ lit "_watermark")))
         (Open (arg_input_path args) :: t
          ++ [Print (MsgProcessError (name (arg_input_path args)));
              Print MsgSingleFailed])).
Proof.
  intros F S B. unfold main. cbv zeta. unfold bind at 1. unfold get at 1.
  rewrite F, S. cbn [negb].
  rewrite (bind_ok _ _ _ _ _ (ScriptFacts.mkdir_free _ _ B)).
  match goal with
  | |- context [try_except
                  (Run.bind (add_watermark PIL ?p (AsPath ?q) ?o)
                     (fun _ => print ?m)) _ ?w0] =>
      destruct (ScriptFacts.single_attempt_fails PIL p q o m w0) as (t & E)
  end.
  exists t. rewrite E. reflexivity.
Qed.

Lemma single_file_always_fails_witness :
  exists t,
    main Demo.PIL supported_formats
      (Demo.command_line ["home"; "pics"; "a.jpg"]%string) Demo.disk =
      (Ok tt,
       logged
         (made Demo.disk (Demo.dir ["home"; "pics"; "a_watermark"]%string))
         (Open (Demo.dir ["home"; "pics"; "a.jpg"]%string) :: t
          ++ [Print (MsgProcessError (lit "a.jpg"));
              Print MsgSingleFailed])).
Proof.
  exact (single_file_always_fails Demo.PIL supported_formats
           (Demo.command_line ["home"; "pics"; "a.jpg"]%string) Demo.disk
           eq_refl eq_refl eq_refl).
Defined.


(** ** The guard of [process_directory] *)

Module GuardFacts.

Lemma output_dir_differs (d : path) : path_eqb d (output_dir_of d) = false.
Proof.
  destruct (path_eqb d (output_dir_of d)) eqn:E; [|reflexivity].
  apply path_eqb_eq in E. apply (f_equal name) in E.
  unfold output_dir_of, sibling in E. cbn [name] in E.
  apply (f_equal (@List.length ascii)) in E. rewrite length_app in E.
  simpl in E. lia.
Qed.

Lemma made_keeps_not_dir (w : world) (d : path) :
  is_dir w d = false -> is_dir (made w (output_dir_of d)) d = false.
Proof.
  intros D. unfold made, is_dir in *. cbn [dirs].
  destruct (existsb (path_eqb (output_dir_of d)) (dirs w)); [exact D|].
  rewrite existsb_app, D. cbn [existsb orb].
  rewrite output_dir_differs. reflexivity.
Qed.

Lemma no_hits (w : world) (d : path) (exts : list str) :
  is_dir w d = false ->
  flat_map (fun ext => hits w d ext ++ hits w d (upper ext)) exts = [].
Proof.
  intros D. induction exts as [|ext more IH]; cbn [flat_map];
    [reflexivity|].
  rewrite IH. unfold hits, entries. rewrite D. reflexivity.
Qed.

End GuardFacts.

(** X16: the guard of [process_directory] asks whether the path exists,
    not whether it is a directory.  Handed a file, the method goes on as
    for a directory: it makes "<name>_watermark" next to the file, runs
    its globs, which find nothing, reports that no picture was found, and
    returns. *)
Theorem process_directory_on_a_file
    (PIL : pillow) (order : list str) (d : path) (o : options) (w : world) :
  is_file w d = true ->
  is_dir w d = false ->
  blocked w (output_dir_of d) = false ->
  process_directory PIL order d o w =
    (Ok tt,
     logged (made w (output_dir_of d))
       (Print (MsgOutputDir (output_dir_of d)) :: globs d order
        ++ [Print MsgNoImages])).
Proof.
  intros F D B. unfold process_directory. cbv zeta.
  unfold bind at 1. unfold get at 1.
  unfold exists_. rewrite D, F. cbn [orb negb].
  change (sibling d (name d ++ lit "_watermark")) with (output_dir_of d).
  rewrite (bind_ok _ _ _ _ _ (ScriptFacts.mkdir_free (output_dir_of d) w B)).
  rewrite bind_print.
  rewrite (bind_ok _ _ _ _ _ (collect_run d order [] _)).
  rewrite logged_logged.
  rewrite GuardFacts.no_hits.
  - unfold print, emit, logged. cbn [dirs files written trace app].
    repeat first [rewrite <- app_assoc | progress cbn [app]]. reflexivity.
  - unfold logged, is_dir. cbn [dirs].
    exact (GuardFacts.made_keeps_not_dir w d D).
Qed.

Lemma process_directory_on_a_file_witness :
  process_directory Demo.PIL supported_formats
    (Demo.dir ["home"; "pics"; "b.txt"]%string) Demo.defaults Demo.disk =
    (Ok tt,
     logged
       (made Demo.disk (Demo.dir ["home"; "pics"; "b.txt_watermark"]%string))
       (Print (MsgOutputDir (Demo.dir ["home"; "pics"; "b.txt_watermark"]%string))
        :: globs (Demo.dir ["home"; "pics"; "b.txt"]%string) supported_formats
        ++ [Print MsgNoImages])).
Proof.
  exact (process_directory_on_a_file Demo.PIL supported_formats
           (Demo.dir ["home"; "pics"; "b.txt"]%string) Demo.defaults
           Demo.disk eq_refl eq_refl eq_refl).
Defined.
